(** * PLEBLAUNCH trading engine: OrderExecutionService

    A shallow embedding of
    [backend/src/services/tradingEngine/OrderExecutionService.ts] and of the
    types it uses from [backend/types/trading.ts], together with the
    properties of the order life cycle, the price triggers and the slippage
    gate.

    Conventions of the embedding.

    - A JavaScript [number] is a value of [num]: a rational, [+Infinity],
      [-Infinity] or [NaN].  Arithmetic on finite values is exact (binary64
      rounding and the sign of zero are not modelled); the special values
      follow IEEE 754 as JavaScript does.
    - An optional field ([limitPrice?: number]) is an [option]; [None] is
      [undefined].
    - [async] methods are computations in the monad [M]: they read and
      write a [World] (the [orders] and [trades] tables, the portfolio, a
      clock and the trace of calls made to collaborators) and end with a
      value or with a thrown exception.
    - The collaborators whose code is outside the service (RiskManager,
      JupiterService, PortfolioManager, the pg pool's availability) are the
      fields of [Env]; every call to one of them advances the clock, and a
      collaborator answers as a function of the clock and its arguments.
    - The rows [pool.query] returns are read as [Order] objects, as the
      return type [Promise<Order[]>] of [getPendingOrders] declares.
    - Calls to the logger do not act on this state and are left out. *)

From Stdlib Require Import QArith Qabs Qround Lqa Lia ZArith List String Ascii Bool Arith.
Import ListNotations.

Local Open Scope Q_scope.

(** ** JavaScript numbers *)

Module JS.

Inductive num : Type :=
| Fin (q : Q)
| PInf
| NInf
| NaN.

Definition Qzerob (q : Q) : bool := Qeq_bool q 0.
Definition Qltb (a b : Q) : bool := negb (Qle_bool b a).

(** [x - y] *)
Definition sub (x y : num) : num :=
  match x, y with
  | NaN, _ | _, NaN => NaN
  | Fin a, Fin b => Fin (a - b)
  | Fin _, PInf => NInf
  | Fin _, NInf => PInf
  | PInf, PInf => NaN
  | PInf, _ => PInf
  | NInf, NInf => NaN
  | NInf, _ => NInf
  end.

(** [Math.abs(x)] *)
Definition abs (x : num) : num :=
  match x with
  | Fin q => Fin (Qabs q)
  | PInf | NInf => PInf
  | NaN => NaN
  end.

(** [x * y] *)
Definition mul (x y : num) : num :=
  match x, y with
  | NaN, _ | _, NaN => NaN
  | Fin a, Fin b => Fin (a * b)
  | Fin a, PInf | PInf, Fin a =>
      if Qzerob a then NaN else if Qltb a 0 then NInf else PInf
  | Fin a, NInf | NInf, Fin a =>
      if Qzerob a then NaN else if Qltb a 0 then PInf else NInf
  | PInf, PInf | NInf, NInf => PInf
  | PInf, NInf | NInf, PInf => NInf
  end.

(** [x / y]; a zero divisor is the positive zero. *)
Definition div (x y : num) : num :=
  match x, y with
  | NaN, _ | _, NaN => NaN
  | Fin a, Fin b =>
      if Qzerob b
      then (if Qzerob a then NaN else if Qltb a 0 then NInf else PInf)
      else Fin (a / b)
  | Fin _, (PInf | NInf) => Fin 0
  | PInf, Fin b => if Qltb b 0 then NInf else PInf
  | NInf, Fin b => if Qltb b 0 then PInf else NInf
  | (PInf | NInf), (PInf | NInf) => NaN
  end.

(** [x < y]: false as soon as one side is [NaN]. *)
Definition ltb (x y : num) : bool :=
  match x, y with
  | NaN, _ | _, NaN => false
  | Fin a, Fin b => Qltb a b
  | _, NInf => false
  | NInf, _ => true
  | PInf, _ => false
  | Fin _, PInf => true
  end.

(** [x <= y] *)
Definition leb (x y : num) : bool :=
  match x, y with
  | NaN, _ | _, NaN => false
  | Fin a, Fin b => Qle_bool a b
  | NInf, _ => true
  | _, PInf => true
  | _, NInf => false
  | PInf, _ => false
  end.

(** [x > y] and [x >= y] *)
Definition gtb (x y : num) : bool := ltb y x.
Definition geb (x y : num) : bool := leb y x.

(** ToNumber of an optional number: [undefined] becomes [NaN]. *)
Definition toNumber (v : option num) : num :=
  match v with
  | Some x => x
  | None => NaN
  end.

(** ToBoolean of an optional number: [undefined], [0] and [NaN] are falsy. *)
Definition truthy (v : option num) : bool :=
  match v with
  | None => false
  | Some NaN => false
  | Some (Fin q) => negb (Qzerob q)
  | Some _ => true
  end.

(** [a || b] on optional numbers. *)
Definition or_else (a b : option num) : option num :=
  if truthy a then a else b.

(** [a || 0] *)
Definition or_zero (a : option num) : num :=
  if truthy a then toNumber a else Fin 0.

(** *** [Number.prototype.toFixed(2)] *)

Definition digit (n : Z) : ascii :=
  ascii_of_nat (48 + Z.to_nat n).

Fixpoint digits_fuel (fuel : nat) (n : Z) (acc : string) : string :=
  match fuel with
  | O => acc
  | S fuel' =>
      let acc' := String (digit (n mod 10)) acc in
      if (n / 10 =? 0)%Z then acc' else digits_fuel fuel' (n / 10)%Z acc'
  end.

(** Decimal digits of a non-negative integer. *)
Definition decimal (n : Z) : string :=
  digits_fuel (S (Z.to_nat (Z.log2 n))) n EmptyString.

(** [x.toFixed(2)]: the integer [n] nearest to [100 * |x|] (the larger one
    on a tie), printed with two decimals; below [10^21] in absolute value,
    where JavaScript keeps the fixed notation. *)
Definition toFixed2 (x : num) : string :=
  match x with
  | NaN => "NaN"
  | PInf => "Infinity"
  | NInf => "-Infinity"
  | Fin q =>
      let n := Qfloor (Qabs q * 100 + (1 # 2)) in
      ((if Qltb q 0 then "-" else "")
         ++ decimal (n / 100) ++ "."
         ++ String (digit ((n / 10) mod 10)) (String (digit (n mod 10)) EmptyString))%string
  end.

End JS.

Import JS.

(** ** The types of [types/trading.ts] *)

Inductive OrderType : Type :=
| MARKET | LIMIT | STOP_LOSS | TAKE_PROFIT | TRAILING_STOP.

Inductive OrderStatus : Type :=
| PENDING | FILLED | PARTIALLY_FILLED | CANCELLED | REJECTED | FAILED | EXPIRED.

Inductive OrderSide : Type :=
| BUY | SELL.

Inductive TradeStatus : Type :=
| TRADE_PENDING | TRADE_COMPLETED | TRADE_FAILED | TRADE_CANCELLED.

Definition OrderStatus_eqb (a b : OrderStatus) : bool :=
  match a, b with
  | PENDING, PENDING | FILLED, FILLED | PARTIALLY_FILLED, PARTIALLY_FILLED
  | CANCELLED, CANCELLED | REJECTED, REJECTED | FAILED, FAILED
  | EXPIRED, EXPIRED => true
  | _, _ => false
  end.

(** The terminal statuses of the life cycle. *)
Definition terminal (s : OrderStatus) : bool :=
  match s with
  | FILLED | CANCELLED | REJECTED | FAILED | EXPIRED => true
  | PENDING | PARTIALLY_FILLED => false
  end.

(** [interface Order]: the fields the service reads or the store writes.
    Timestamps are clock values. *)
Module Order.
Record t : Type := mk {
  id : string;
  userId : string;
  userWallet : string;
  type : OrderType;
  side : OrderSide;
  status : OrderStatus;
  inputMint : string;
  outputMint : string;
  amount : num;
  limitPrice : option num;
  stopPrice : option num;
  takeProfitPrice : option num;
  marketPrice : option num;
  slippageTolerance : num;
  createdAt : nat;
  updatedAt : nat;
  failureReason : option string
}.

(** [SET status = s, updated_at = NOW()] on one row. *)
Definition with_status (s : OrderStatus) (at_ : nat) (o : t) : t :=
  mk (id o) (userId o) (userWallet o) (type o) (side o) s
     (inputMint o) (outputMint o) (amount o) (limitPrice o) (stopPrice o)
     (takeProfitPrice o) (marketPrice o) (slippageTolerance o)
     (createdAt o) at_ (failureReason o).

(** [SET status = s, failure_reason = r, updated_at = NOW()] on one row. *)
Definition with_status_reason (s : OrderStatus) (r : option string)
    (at_ : nat) (o : t) : t :=
  mk (id o) (userId o) (userWallet o) (type o) (side o) s
     (inputMint o) (outputMint o) (amount o) (limitPrice o) (stopPrice o)
     (takeProfitPrice o) (marketPrice o) (slippageTolerance o)
     (createdAt o) at_ r.
End Order.

(** [interface Quote]: [inAmount] and [outAmount] stand for the numbers
    [parseFloat] reads from the two strings of the quote. *)
Module Quote.
Record t : Type := mk {
  inputMint : string;
  outputMint : string;
  inAmount : num;
  outAmount : num
}.
End Quote.

(** [interface SwapResult] *)
Module SwapResult.
Record t : Type := mk {
  success : bool;
  signature : option string;
  error : option string;
  fees : option num;
  slippage : option num
}.
End SwapResult.

(** [interface Trade] *)
Module Trade.
Record t : Type := mk {
  id : string;
  orderId : string;
  userId : string;
  inputMint : string;
  outputMint : string;
  inputAmount : num;
  outputAmount : num;
  price : num;
  side : OrderSide;
  signature : option string;
  status : TradeStatus;
  executedAt : nat;
  fees : num;
  slippage : num
}.
End Trade.

(** The result of [RiskManager.validateOrder] and of [checkSlippage]:
    [{ isValid: boolean; reason?: string }]. *)
Module Check.
Record t : Type := mk {
  isValid : bool;
  reason : option string
}.
End Check.

(** ** The store, the collaborators and the monad of effects *)

(** The SQL statements the service sends through [pool.query]. *)
Inductive Statement : Type :=
| UpdateStatus (status : OrderStatus) (reason : option string) (orderId : string)
    (* UPDATE orders SET status = $1, failure_reason = $2, updated_at = NOW()
       WHERE id = $3 *)
| UpdateCancel (status : OrderStatus) (orderId userId : string) (expected : OrderStatus)
    (* UPDATE orders SET status = $1, updated_at = NOW()
       WHERE id = $2 AND user_id = $3 AND status = $4 *)
| InsertTrade (t : Trade.t)
    (* INSERT INTO trades (...) VALUES (...) *)
| SelectPending (status : OrderStatus).
    (* SELECT * FROM orders WHERE status = $1 ORDER BY created_at ASC *)

(** A call that leaves the service. *)
Inductive Call : Type :=
| CValidateOrder (o : Order.t)
| CGetQuote (inputMint outputMint : string) (amount : num)
| CExecuteSwap (q : Quote.t) (wallet : string) (slippageTolerance : num)
| CGetTokenPrice (inputMint outputMint : string)
| CUpdatePortfolio (t : Trade.t)
| CQuery (s : Statement).

(** The state the service acts on.  [calls] is the trace of the calls made
    so far, the latest first; [now] counts them and serves as the clock. *)
Record World : Type := mkWorld {
  orders : list Order.t;
  trades : list Trade.t;
  portfolio : list Trade.t;
  now : nat;
  calls : list Call
}.

(** How an awaited computation ends. *)
Inductive Res (A : Type) : Type :=
| Ok (a : A)
| Throw (message : string).
Arguments Ok {A} a.
Arguments Throw {A} message.

(** The collaborators.  Each answers as a function of the time of the call
    and of its arguments; [Throw] is a rejected promise. *)
Record Env : Type := mkEnv {
  validateOrder : nat -> Order.t -> Res Check.t;
  getQuote : nat -> string -> string -> num -> Res (option Quote.t);
  executeSwap : nat -> Quote.t -> string -> num -> Res SwapResult.t;
  getTokenPrice : nat -> string -> string -> Res (option num);
  updatePortfolioAfterTrade : nat -> Trade.t -> Res unit;
  (** [Some m]: the pool rejects the statement with message [m]. *)
  poolRejects : nat -> Statement -> option string;
  (** [`trade_${Date.now()}_${Math.random()...}`] *)
  generateTradeId : nat -> string
}.

Definition M (A : Type) : Type := World -> Res A * World.

Definition ret {A} (a : A) : M A := fun w => (Ok a, w).

Definition bind {A B} (m : M A) (k : A -> M B) : M B :=
  fun w =>
    match m w with
    | (Ok a, w') => k a w'
    | (Throw e, w') => (Throw e, w')
    end.

(** [try { m } catch (error) { h error.message }] *)
Definition try_catch {A} (m : M A) (h : string -> M A) : M A :=
  fun w =>
    match m w with
    | (Ok a, w') => (Ok a, w')
    | (Throw e, w') => h e w'
    end.

Declare Scope engine_scope.
Delimit Scope engine_scope with engine.
Notation "x <- m ;; k" := (bind m (fun x => k))
  (at level 100, m at next level, right associativity) : engine_scope.
Notation "m ;;; k" := (bind m (fun _ => k))
  (at level 100, right associativity) : engine_scope.

(** Record a call and advance the clock. *)
Definition tick (c : Call) (w : World) : World :=
  mkWorld (orders w) (trades w) (portfolio w) (S (now w)) (c :: calls w).

(** The portfolio after a trade has been applied to it. *)
Definition applied (t : Trade.t) (w : World) : World :=
  mkWorld (orders w) (trades w) (t :: portfolio w) (now w) (calls w).

(** Await a collaborator. *)
Definition await {A} (c : Call) (answer : nat -> Res A) : M A :=
  fun w => (answer (now w), tick c w).

(** ** The store behind [pool.query] *)

(** What [pool.query] resolves to. *)
Record QueryResult : Type := mkResult {
  rows : list Order.t;
  rowCount : nat
}.

(** [ORDER BY created_at ASC], rows of equal time in table order. *)
Fixpoint insert_by_createdAt (o : Order.t) (l : list Order.t) : list Order.t :=
  match l with
  | [] => [o]
  | x :: l' =>
      if Nat.leb (Order.createdAt o) (Order.createdAt x)
      then o :: l
      else x :: insert_by_createdAt o l'
  end.

Definition order_by_createdAt (l : list Order.t) : list Order.t :=
  fold_right insert_by_createdAt [] l.

(** The rows a statement's WHERE clause selects. *)
Definition selects (s : Statement) (o : Order.t) : bool :=
  match s with
  | UpdateStatus _ _ orderId => String.eqb (Order.id o) orderId
  | UpdateCancel _ orderId userId expected =>
      String.eqb (Order.id o) orderId
      && String.eqb (Order.userId o) userId
      && OrderStatus_eqb (Order.status o) expected
  | InsertTrade _ => false
  | SelectPending status => OrderStatus_eqb (Order.status o) status
  end.

(** The row a statement writes in place of a selected row. *)
Definition rewrite (s : Statement) (at_ : nat) (o : Order.t) : Order.t :=
  match s with
  | UpdateStatus status reason _ => Order.with_status_reason status reason at_ o
  | UpdateCancel status _ _ _ => Order.with_status status at_ o
  | InsertTrade _ | SelectPending _ => o
  end.

Definition run_orders (s : Statement) (at_ : nat) (tbl : list Order.t)
  : list Order.t :=
  map (fun o => if selects s o then rewrite s at_ o else o) tbl.

Definition run_trades (s : Statement) (tbl : list Trade.t) : list Trade.t :=
  match s with
  | InsertTrade t => tbl ++ [t]
  | _ => tbl
  end.

Definition result_of (s : Statement) (tbl : list Order.t) : QueryResult :=
  match s with
  | UpdateStatus _ _ _ | UpdateCancel _ _ _ _ =>
      mkResult [] (List.length (filter (selects s) tbl))
  | InsertTrade _ => mkResult [] 1
  | SelectPending _ =>
      let r := order_by_createdAt (filter (selects s) tbl) in
      mkResult r (List.length r)
  end.

(** The committed effect of a statement on the world (after the call has
    been recorded). *)
Definition commit (s : Statement) (at_ : nat) (w : World) : World :=
  mkWorld (run_orders s at_ (orders w)) (run_trades s (trades w))
          (portfolio w) (now w) (calls w).

Section Engine.

Variable env : Env.

Local Open Scope engine_scope.

(** [await this.pool.query(s)]: the statement either is rejected and
    changes nothing, or is executed atomically. *)
Definition query (s : Statement) : M QueryResult :=
  fun w =>
    match poolRejects env (now w) s with
    | Some e => (Throw e, tick (CQuery s) w)
    | None => (Ok (result_of s (orders w)), commit s (now w) (tick (CQuery s) w))
    end.

(** Modelled from the spec: [PortfolioManager.updatePortfolioAfterTrade]
    (the file is not part of the sources) applies the trade to the user's
    positions; the portfolio is kept as the list of the trades applied to
    it, and a call that throws applies nothing. *)
Definition applyToPortfolio (t : Trade.t) : M unit :=
  fun w =>
    match updatePortfolioAfterTrade env (now w) t with
    | Ok u => (Ok u, applied t (tick (CUpdatePortfolio t) w))
    | Throw e => (Throw e, tick (CUpdatePortfolio t) w)
    end.

(** ** [OrderExecutionService] *)

(** [private async updateOrderStatus(orderId, status, reason?)] *)
Definition updateOrderStatus (orderId : string) (status : OrderStatus)
    (reason : option string) : M unit :=
  _ <- query (UpdateStatus status reason orderId) ;;
  ret tt.

(** [order.limitPrice || order.marketPrice] *)
Definition expectedPrice (order : Order.t) : option num :=
  or_else (Order.limitPrice order) (Order.marketPrice order).

(** [parseFloat(quote.outAmount) / parseFloat(quote.inAmount)] *)
Definition quotedPrice (quote : Quote.t) : num :=
  div (Quote.outAmount quote) (Quote.inAmount quote).

(** [Math.abs(quotedPrice - expectedPrice) / expectedPrice] *)
Definition slippageOf (order : Order.t) (quote : Quote.t) : num :=
  let expected := toNumber (expectedPrice order) in
  div (abs (sub (quotedPrice quote) expected)) expected.

Definition slippageReason (slippage tolerance : num) : string :=
  ("Slippage " ++ toFixed2 (mul slippage (Fin 100))
     ++ "% exceeds tolerance " ++ toFixed2 (mul tolerance (Fin 100)) ++ "%")%string.

(** [private checkSlippage(order, quote)] *)
Definition checkSlippage (order : Order.t) (quote : Quote.t) : Check.t :=
  let slippage := slippageOf order quote in
  if gtb slippage (Order.slippageTolerance order)
  then Check.mk false
         (Some (slippageReason slippage (Order.slippageTolerance order)))
  else Check.mk true None.

(** [private shouldExecuteLimitOrder(order, currentPrice)] *)
Definition shouldExecuteLimitOrder (order : Order.t) (currentPrice : num) : bool :=
  match Order.side order with
  | BUY => leb currentPrice (toNumber (Order.limitPrice order))
  | SELL => geb currentPrice (toNumber (Order.limitPrice order))
  end.

(** [private shouldExecuteStopLoss(order, currentPrice)] *)
Definition shouldExecuteStopLoss (order : Order.t) (currentPrice : num) : bool :=
  match Order.side order with
  | SELL => leb currentPrice (toNumber (Order.stopPrice order))
  | BUY => false
  end.

(** [private async createTrade(order, swapResult, quote)] *)
Definition createTrade (order : Order.t) (swapResult : SwapResult.t)
    (quote : Quote.t) : M Trade.t :=
  fun w =>
    let trade :=
      Trade.mk (generateTradeId env (now w))
        (Order.id order) (Order.userId order)
        (Order.inputMint order) (Order.outputMint order)
        (Quote.inAmount quote) (Quote.outAmount quote)
        (div (Quote.outAmount quote) (Quote.inAmount quote))
        (Order.side order)
        (SwapResult.signature swapResult)
        TRADE_COMPLETED
        (now w)
        (or_zero (SwapResult.fees swapResult))
        (or_zero (SwapResult.slippage swapResult)) in
    (_ <- query (InsertTrade trade) ;; ret trade) w.

(** [async executeMarketOrder(order)]; [None] is [null]. *)
Definition executeMarketOrder (order : Order.t) : M (option Trade.t) :=
  try_catch
    ((* 1. Risk check *)
     riskCheck <- await (CValidateOrder order) (fun t => validateOrder env t order) ;;
     if negb (Check.isValid riskCheck) then
       updateOrderStatus (Order.id order) REJECTED (Check.reason riskCheck) ;;;
       ret None
     else
     (* 2. Get current market price *)
     quote <- await (CGetQuote (Order.inputMint order) (Order.outputMint order)
                       (Order.amount order))
                (fun t => getQuote env t (Order.inputMint order)
                            (Order.outputMint order) (Order.amount order)) ;;
     match quote with
     | None =>
         updateOrderStatus (Order.id order) FAILED (Some "Unable to get quote"%string) ;;;
         ret None
     | Some quote =>
     (* 3. Check slippage tolerance *)
     let slippageCheck := checkSlippage order quote in
     if negb (Check.isValid slippageCheck) then
       updateOrderStatus (Order.id order) REJECTED (Check.reason slippageCheck) ;;;
       ret None
     else
     (* 4. Execute the swap *)
     swapResult <- await (CExecuteSwap quote (Order.userWallet order)
                            (Order.slippageTolerance order))
                     (fun t => executeSwap env t quote (Order.userWallet order)
                                 (Order.slippageTolerance order)) ;;
     if negb (SwapResult.success swapResult) then
       updateOrderStatus (Order.id order) FAILED (SwapResult.error swapResult) ;;;
       ret None
     else
     (* 5. Create trade record *)
     trade <- createTrade order swapResult quote ;;
     (* 6. Update portfolio *)
     applyToPortfolio trade ;;;
     (* 7. Update order status *)
     updateOrderStatus (Order.id order) FILLED None ;;;
     ret (Some trade)
     end)
    (fun message =>
       updateOrderStatus (Order.id order) FAILED (Some message) ;;;
       ret None).

(** [const currentPrice = await this.jupiterService.getTokenPrice(...)] *)
Definition currentPriceOf (order : Order.t) : M (option num) :=
  await (CGetTokenPrice (Order.inputMint order) (Order.outputMint order))
    (fun t => getTokenPrice env t (Order.inputMint order) (Order.outputMint order)).

(** [async executeLimitOrder(order)] *)
Definition executeLimitOrder (order : Order.t) : M (option Trade.t) :=
  try_catch
    (currentPrice <- currentPriceOf order ;;
     if negb (truthy currentPrice) then ret None
     else if negb (shouldExecuteLimitOrder order (toNumber currentPrice))
     then ret None
     else executeMarketOrder order)
    (fun _ => ret None).

(** [async executeStopLossOrder(order)] *)
Definition executeStopLossOrder (order : Order.t) : M (option Trade.t) :=
  try_catch
    (currentPrice <- currentPriceOf order ;;
     if negb (truthy currentPrice) then ret None
     else if negb (shouldExecuteStopLoss order (toNumber currentPrice))
     then ret None
     else executeMarketOrder order)
    (fun _ => ret None).

(** [private async executeTakeProfitOrder(order)] *)
Definition executeTakeProfitOrder (order : Order.t) : M (option Trade.t) :=
  currentPrice <- currentPriceOf order ;;
  if negb (truthy currentPrice) then ret None
  else
    match Order.side order with
    | SELL =>
        if geb (toNumber currentPrice) (toNumber (Order.takeProfitPrice order))
        then executeMarketOrder order
        else ret None
    | BUY => ret None
    end.

(** [private async getPendingOrders()] *)
Definition getPendingOrders : M (list Order.t) :=
  result <- query (SelectPending PENDING) ;;
  ret (rows result).

(** The body of the [switch (order.type)] of [processPendingOrders]. *)
Definition dispatch (order : Order.t) : M unit :=
  match Order.type order with
  | LIMIT => _ <- executeLimitOrder order ;; ret tt
  | STOP_LOSS => _ <- executeStopLossOrder order ;; ret tt
  | TAKE_PROFIT => _ <- executeTakeProfitOrder order ;; ret tt
  | MARKET | TRAILING_STOP => ret tt
  end.

(** [for (const order of pendingOrders) { switch ... }] *)
Fixpoint forEachOrder (pendingOrders : list Order.t) : M unit :=
  match pendingOrders with
  | [] => ret tt
  | order :: rest => dispatch order ;;; forEachOrder rest
  end.

(** [async processPendingOrders()] *)
Definition processPendingOrders : M unit :=
  try_catch
    (pendingOrders <- getPendingOrders ;;
     forEachOrder pendingOrders)
    (fun _ => ret tt).

(** [async cancelOrder(orderId, userId)] *)
Definition cancelOrder (orderId userId : string) : M bool :=
  try_catch
    (result <- query (UpdateCancel CANCELLED orderId userId PENDING) ;;
     ret (Nat.ltb 0 (rowCount result)))
    (fun _ => ret false).

End Engine.

(** ** The claims of the specification, in its own words *)

(** The reference price as the specification words it (section 4.2,
    step 3): "the order's limit price if present, else the order's
    recorded market price at creation". *)
Definition referencePrice (order : Order.t) : option num :=
  match Order.limitPrice order with
  | Some p => Some p
  | None => Order.marketPrice order
  end.

(** "absent (or zero)" *)
Definition absent_or_zero (v : option num) : Prop :=
  v = None \/ exists q, v = Some (Fin q) /\ q == 0.

(** The trigger of a limit order (section 4.2): BUY when
    [currentPrice <= limitPrice], SELL when [currentPrice >= limitPrice]. *)
Definition limitTrigger (side : OrderSide) (currentPrice limitPrice : Q) : Prop :=
  match side with
  | BUY => currentPrice <= limitPrice
  | SELL => currentPrice >= limitPrice
  end.

(** The trigger of a stop-loss order (section 4.2): side SELL and
    [currentPrice <= stopPrice]. *)
Definition stopLossTrigger (side : OrderSide) (currentPrice stopPrice : Q) : Prop :=
  side = SELL /\ currentPrice <= stopPrice.

(** ** Sample data *)

Module Demo.

Local Open Scope string_scope.

Definition order (id : string) (type : OrderType) (side : OrderSide)
    (limitPrice marketPrice : option num) (tolerance : num) (createdAt : nat)
  : Order.t :=
  Order.mk id "alice" "wallet-of-alice" type side PENDING "mintA" "mintB"
    (Fin 10) limitPrice None None marketPrice tolerance createdAt createdAt None.

(** A limit order to sell at 50 with a tolerance of 1%. *)
Definition sell50 : Order.t :=
  order "o1" LIMIT SELL (Some (Fin 50)) None (Fin (1 # 100)) 1.

(** A market order with a reference price of 100 and a tolerance of 1%. *)
Definition market100 : Order.t :=
  order "o2" MARKET BUY None (Some (Fin 100)) (Fin (1 # 100)) 2.

(** A market order whose recorded market price is 0. *)
Definition market0 : Order.t :=
  order "o3" MARKET BUY None (Some (Fin 0)) (Fin (1 # 100)) 3.

(** A market order without any reference price, as [createOrder] of the
    trading controller builds it. *)
Definition marketBare : Order.t :=
  order "o4" MARKET BUY None None (Fin (1 # 100)) 4.

(** A take-profit order and a stop-loss order, both older than [sell50]. *)
Definition takeProfit : Order.t :=
  order "o5" TAKE_PROFIT SELL None None (Fin (1 # 100)) 0.

Definition stopLoss : Order.t :=
  Order.mk "o6" "alice" "wallet-of-alice" STOP_LOSS SELL PENDING "mintA" "mintB"
    (Fin 10) None (Some (Fin 40)) None None (Fin (1 # 100)) 0 0 None.

(** The same stop at 40 on the BUY side. *)
Definition stopLossBuy : Order.t :=
  Order.mk "o7" "alice" "wallet-of-alice" STOP_LOSS BUY PENDING "mintA" "mintB"
    (Fin 10) None (Some (Fin 40)) None None (Fin (1 # 100)) 0 0 None.

(** A quote of [outAmount] for an input of [inAmount]. *)
Definition quote (inAmount outAmount : Q) : Quote.t :=
  Quote.mk "mintA" "mintB" (Fin inAmount) (Fin outAmount).

Definition swapped : SwapResult.t :=
  SwapResult.mk true (Some "sig-1") None (Some (Fin (1 # 10))) None.

Definition world (tbl : list Order.t) : World :=
  mkWorld tbl [] [] 0 [].

(** Collaborators that all answer: the risk gate passes, the venue quotes
    [q] and settles, the price feed says [price], the store is up. *)
Definition calm (q : Quote.t) (price : num) : Env :=
  mkEnv (fun _ _ => Ok (Check.mk true None))
        (fun _ _ _ _ => Ok (Some q))
        (fun _ _ _ _ => Ok swapped)
        (fun _ _ _ => Ok (Some price))
        (fun _ _ => Ok tt)
        (fun _ _ => None)
        (fun t => "trade_" ++ JS.decimal (Z.of_nat t)).

(** As [calm], with a risk manager that turns every order down. *)
Definition blacklisting (q : Quote.t) (price : num) : Env :=
  mkEnv (fun _ _ => Ok (Check.mk false (Some "Token is blacklisted")))
        (getQuote (calm q price)) (executeSwap (calm q price))
        (getTokenPrice (calm q price))
        (updatePortfolioAfterTrade (calm q price))
        (poolRejects (calm q price)) (generateTradeId (calm q price)).

(** As [calm], with a portfolio manager that throws. *)
Definition portfolioDown (q : Quote.t) (price : num) : Env :=
  mkEnv (validateOrder (calm q price))
        (getQuote (calm q price)) (executeSwap (calm q price))
        (getTokenPrice (calm q price))
        (fun _ _ => Throw "portfolio service unavailable")
        (poolRejects (calm q price)) (generateTradeId (calm q price)).

(** As [calm], with a price feed that throws at time [t] only. *)
Definition priceDownAt (t : nat) (q : Quote.t) (price : num) : Env :=
  mkEnv (validateOrder (calm q price))
        (getQuote (calm q price)) (executeSwap (calm q price))
        (fun t' _ _ => if Nat.eqb t' t then Throw "price feed timeout"
                       else Ok (Some price))
        (updatePortfolioAfterTrade (calm q price))
        (poolRejects (calm q price)) (generateTradeId (calm q price)).

(** The status and the failure reason of every row, in table order. *)
Definition verdicts (w : World) : list (string * OrderStatus * option string) :=
  map (fun o => (Order.id o, Order.status o, Order.failureReason o)) (orders w).

(** The orders the recorded trades belong to. *)
Definition tradedOrders (w : World) : list string :=
  map Trade.orderId (trades w).

(** The number of times the price feed has been asked. *)
Definition priceCalls (w : World) : nat :=
  List.length (filter (fun c => match c with
                                | CGetTokenPrice _ _ => true
                                | _ => false
                                end) (calls w)).

End Demo.

(** ** Worlds reached by the service *)

(** The statement that records a verdict on an order. *)
Definition verdict (status : OrderStatus) (reason : option string)
    (order : Order.t) : Statement :=
  UpdateStatus status reason (Order.id order).




(** The statements the service sends. *)
Definition issued (s : Statement) : Prop :=
  match s with
  | UpdateStatus status _ _ => status = REJECTED \/ status = FAILED \/ status = FILLED
  | UpdateCancel status _ _ expected => status = CANCELLED /\ expected = PENDING
  | InsertTrade _ => True
  | SelectPending status => status = PENDING
  end.

(** [R] holds between the world before and the world after [m]. *)
Definition preserves {A} (R : World -> World -> Prop) (m : M A) : Prop :=
  forall w, R w (snd (m w)).

(** A relation between worlds that every step of the service respects. *)
Record Stepwise (R : World -> World -> Prop) : Prop := mkStepwise {
  step_refl : forall w, R w w;
  step_trans : forall w1 w2 w3, R w1 w2 -> R w2 w3 -> R w1 w3;
  step_tick : forall c w, R w (tick c w);
  step_commit : forall s t w, issued s -> R w (commit s t w);
  step_applied : forall t w, R w (applied t w)
}.

(** The clock never goes back. *)
Definition clockAdvances (w w' : World) : Prop := (now w <= now w')%nat.

(** Row by row, the table keeps its identifiers and a terminal status
    stays terminal. *)
Definition terminalKept (w w' : World) : Prop :=
  Forall2 (fun o o' =>
             Order.id o = Order.id o'
             /\ (terminal (Order.status o) = true ->
                 terminal (Order.status o') = true))
          (orders w) (orders w').

(** The WHERE clause of [cancelOrder]. *)
Definition cancellable (orderId userId : string) (o : Order.t) : bool :=
  String.eqb (Order.id o) orderId
  && String.eqb (Order.userId o) userId
  && OrderStatus_eqb (Order.status o) PENDING.

(** The world once the price of the order's pair has been asked for. *)
Definition afterPriceCall (order : Order.t) (w : World) : World :=
  tick (CGetTokenPrice (Order.inputMint order) (Order.outputMint order)) w.

(** The price feed gives no usable price: the call throws, or its result
    is falsy ([null], [undefined], [0] or [NaN]), which is what
    [if (!currentPrice)] tests. *)
Definition priceUnavailable (answer : Res (option num)) : Prop :=
  match answer with
  | Throw _ => True
  | Ok p => truthy p = false
  end.

(** [return await this.executeMarketOrder(order)] inside the [try] of
    [executeLimitOrder] and [executeStopLossOrder]: the market order runs,
    and an exception it lets through ends as [null]. *)
Definition delegateToMarketOrder (env : Env) (order : Order.t)
  : M (option Trade.t) :=
  try_catch (executeMarketOrder env order) (fun _ => ret None).

(** Unfold the service down to the collaborators' answers. *)
Ltac run :=
  unfold processPendingOrders, getPendingOrders, cancelOrder,
    executeLimitOrder, executeStopLossOrder, executeTakeProfitOrder,
    currentPriceOf, executeMarketOrder, createTrade, updateOrderStatus,
    applyToPortfolio, query, await, try_catch, bind, ret;
  cbn [fst snd now orders trades portfolio calls tick commit applied negb].

(** Case analysis on every answer a run depends on. *)
Ltac split_answers :=
  repeat match goal with
  | |- context [match ?x with _ => _ end] =>
      lazymatch x with
      | context [match _ with _ => _ end] => fail
      | _ => destruct x eqn:?
      end;
      cbn [fst snd now orders trades portfolio calls tick commit applied
           negb run_trades] in *
  end.
(** ** Further definitions: paths, frames and the cancel endpoint *)

From Stdlib Require Import Sorted Permutation.

(** The trade [createTrade] builds when it is called at time [t]. *)
Definition tradeAt (env : Env) (order : Order.t) (swapResult : SwapResult.t)
    (quote : Quote.t) (t : nat) : Trade.t :=
  Trade.mk (generateTradeId env t)
    (Order.id order) (Order.userId order)
    (Order.inputMint order) (Order.outputMint order)
    (Quote.inAmount quote) (Quote.outAmount quote)
    (div (Quote.outAmount quote) (Quote.inAmount quote))
    (Order.side order)
    (SwapResult.signature swapResult)
    TRADE_COMPLETED
    t
    (or_zero (SwapResult.fees swapResult))
    (or_zero (SwapResult.slippage swapResult)).

(** The calls of a market order up to the quote, the latest first. *)
Definition callsToQuote (order : Order.t) (w : World) : list Call :=
  CGetQuote (Order.inputMint order) (Order.outputMint order) (Order.amount order)
    :: CValidateOrder order :: calls w.

(** The calls of a market order up to the swap, the latest first. *)
Definition callsToSwap (order : Order.t) (quote : Quote.t) (w : World)
  : list Call :=
  CExecuteSwap quote (Order.userWallet order) (Order.slippageTolerance order)
    :: callsToQuote order w.

(** The world after the venue had no quote and the verdict has been
    stored. *)
Definition afterNoQuote (order : Order.t) (w : World) : World :=
  let statement := verdict FAILED (Some "Unable to get quote"%string) order in
  mkWorld (run_orders statement (2 + now w) (orders w))
    (trades w) (portfolio w) (3 + now w)
    (CQuery statement :: callsToQuote order w).

(** The world after the venue has reported that the swap failed and the
    verdict has been stored. *)
Definition afterSwapFailure (order : Order.t) (quote : Quote.t)
    (swapResult : SwapResult.t) (w : World) : World :=
  let statement := verdict FAILED (SwapResult.error swapResult) order in
  mkWorld (run_orders statement (3 + now w) (orders w))
    (trades w) (portfolio w) (4 + now w)
    (CQuery statement :: callsToSwap order quote w).

(** The world after all seven steps: the trade is recorded and applied to
    the portfolio, the order is FILLED. *)
Definition afterFill (env : Env) (order : Order.t) (quote : Quote.t)
    (swapResult : SwapResult.t) (w : World) : World :=
  let trade := tradeAt env order swapResult quote (3 + now w) in
  mkWorld (run_orders (verdict FILLED None order) (5 + now w) (orders w))
    (trades w ++ [trade]) (trade :: portfolio w) (6 + now w)
    (CQuery (verdict FILLED None order)
       :: CUpdatePortfolio trade
       :: CQuery (InsertTrade trade)
       :: callsToSwap order quote w).

(** The trigger of a take-profit order, as [executeTakeProfitOrder] tests
    it: side SELL and [currentPrice >= takeProfitPrice]. *)
Definition takeProfitTrigger (side : OrderSide) (currentPrice takeProfitPrice : Q)
  : Prop :=
  side = SELL /\ takeProfitPrice <= currentPrice.

(** The statements that write no row of an order outside [ids]. *)
Definition writesWithin (ids : list string) (s : Statement) : Prop :=
  match s with
  | UpdateStatus _ _ orderId => In orderId ids
  | UpdateCancel _ orderId _ _ => In orderId ids
  | InsertTrade _ | SelectPending _ => True
  end.

(** Row by row, the table keeps its identifiers, and the rows of the
    orders outside [ids] are the same. *)
Definition untouchedOutside (ids : list string) (w w' : World) : Prop :=
  Forall2 (fun o o' =>
             Order.id o' = Order.id o
             /\ (~ In (Order.id o) ids -> o' = o))
          (orders w) (orders w').

(** A relation between worlds that is respected by every step that sends
    statements of the class [P] only. *)
Record StepwiseOn (P : Statement -> Prop) (R : World -> World -> Prop)
  : Prop := mkStepwiseOn {
  on_refl : forall w, R w w;
  on_trans : forall w1 w2 w3, R w1 w2 -> R w2 w3 -> R w1 w3;
  on_tick : forall c w, R w (tick c w);
  on_commit : forall s t w, P s -> R w (commit s t w);
  on_applied : forall t w, R w (applied t w)
}.

(** The class [P] has the statements of an order: the writes of its
    status and the insert of its trade. *)
Definition allows (P : Statement -> Prop) (order : Order.t) : Prop :=
  (forall status reason, P (UpdateStatus status reason (Order.id order)))
  /\ (forall t, P (InsertTrade t)).

(** [o'] is the row [o] with, at most, another status, failure reason and
    update time. *)
Definition dataKept (o o' : Order.t) : Prop :=
  o' = Order.with_status_reason (Order.status o') (Order.failureReason o')
         (Order.updatedAt o') o.

(** No row is added or removed, and every row keeps its data. *)
Definition rowsKept (w w' : World) : Prop :=
  Forall2 dataKept (orders w) (orders w').

(** The trades recorded before are still there, in place, followed by the
    new ones. *)
Definition tradesExtended (w w' : World) : Prop :=
  exists more, trades w' = trades w ++ more.

(** The operations of the service that act on the store. *)
Inductive Operation : Type :=
| ExecuteMarketOrder (order : Order.t)
| ExecuteLimitOrder (order : Order.t)
| ExecuteStopLossOrder (order : Order.t)
| ExecuteTakeProfitOrder (order : Order.t)
| CancelOrder (orderId userId : string)
| ProcessPendingOrders.

(** The world after one operation, whatever it returned or threw. *)
Definition perform (env : Env) (op : Operation) (w : World) : World :=
  match op with
  | ExecuteMarketOrder order => snd (executeMarketOrder env order w)
  | ExecuteLimitOrder order => snd (executeLimitOrder env order w)
  | ExecuteStopLossOrder order => snd (executeStopLossOrder env order w)
  | ExecuteTakeProfitOrder order => snd (executeTakeProfitOrder env order w)
  | CancelOrder orderId userId => snd (cancelOrder env orderId userId w)
  | ProcessPendingOrders => snd (processPendingOrders env w)
  end.

(** The world after a sequence of operations, one after the other. *)
Fixpoint performAll (env : Env) (ops : list Operation) (w : World) : World :=
  match ops with
  | [] => w
  | op :: rest => performAll env rest (perform env op w)
  end.

(** A call that submits a swap. *)
Definition isSwap (c : Call) : bool :=
  match c with
  | CExecuteSwap _ _ _ => true
  | _ => false
  end.

(** The world after an exception with message [e] was caught once [made]
    calls had been made, [n] of them by this run, and the catch block has
    stored its verdict. *)
Definition afterException (n : nat) (order : Order.t) (e : string)
    (made : list Call) (w : World) : World :=
  mkWorld (run_orders (verdict FAILED (Some e) order) (n + now w) (orders w))
    (trades w) (portfolio w) (S n + now w)
    (CQuery (verdict FAILED (Some e) order) :: made).

(** The rows [getPendingOrders] asks for. *)
Definition isPending (o : Order.t) : bool :=
  OrderStatus_eqb (Order.status o) PENDING.

(** [ORDER BY created_at ASC] *)
Definition olderFirst (a b : Order.t) : Prop :=
  (Order.createdAt a <= Order.createdAt b)%nat.

(** ** [TradingController.cancelOrder], the caller of [cancelOrder] *)

Module TradingController.

(** The JSON bodies of the endpoint: [{ error }] and
    [{ success: true, message }]. *)
Inductive Body : Type :=
| ErrorBody (error : string)
| SuccessBody (message : string).

(** What the handler sends through [res.status(...).json(...)]; [res.json]
    alone answers with status 200. *)
Record Response : Type := mkResponse {
  statusCode : nat;
  body : Body
}.

(** [async cancelOrder(req, res)], with [userId] for [req.user?.id] and
    [orderId] for [req.params.orderId]; the response sent is the result. *)
Definition cancelOrder (env : Env) (userId : option string) (orderId : string)
  : M Response :=
  try_catch
    (match userId with
     | None | Some EmptyString =>
         ret (mkResponse 401 (ErrorBody "Unauthorized"))
     | Some userId =>
         bind (cancelOrder env orderId userId)
           (fun success =>
              if success
              then ret (mkResponse 200 (SuccessBody "Order cancelled successfully"))
              else ret (mkResponse 404
                          (ErrorBody "Order not found or cannot be cancelled")))
     end)
    (fun _ => ret (mkResponse 500 (ErrorBody "Failed to cancel order"))).

(** The status code of the response sent, if one was sent. *)
Definition statusCode_of (r : Res Response) : option nat :=
  match r with
  | Ok response => Some (statusCode response)
  | Throw _ => None
  end.

End TradingController.

(** ** More sample data *)

Module Samples.

Local Open Scope string_scope.

(** As [Demo.calm], with a store that rejects every statement. *)
Definition storeDown (q : Quote.t) (price : num) : Env :=
  mkEnv (validateOrder (Demo.calm q price))
        (getQuote (Demo.calm q price)) (executeSwap (Demo.calm q price))
        (getTokenPrice (Demo.calm q price))
        (updatePortfolioAfterTrade (Demo.calm q price))
        (fun _ _ => Some "connection refused")
        (generateTradeId (Demo.calm q price)).

(** As [Demo.calm], with a venue that has no quote. *)
Definition noQuote (price : num) : Env :=
  mkEnv (validateOrder (Demo.calm (Demo.quote 1 1) price))
        (fun _ _ _ _ => Ok None)
        (executeSwap (Demo.calm (Demo.quote 1 1) price))
        (getTokenPrice (Demo.calm (Demo.quote 1 1) price))
        (updatePortfolioAfterTrade (Demo.calm (Demo.quote 1 1) price))
        (poolRejects (Demo.calm (Demo.quote 1 1) price))
        (generateTradeId (Demo.calm (Demo.quote 1 1) price)).

Definition notSwapped : SwapResult.t :=
  SwapResult.mk false None (Some "Insufficient liquidity") None None.

(** As [Demo.calm], with a venue that reports a failed swap. *)
Definition swapFails (q : Quote.t) (price : num) : Env :=
  mkEnv (validateOrder (Demo.calm q price))
        (getQuote (Demo.calm q price))
        (fun _ _ _ _ => Ok notSwapped)
        (getTokenPrice (Demo.calm q price))
        (updatePortfolioAfterTrade (Demo.calm q price))
        (poolRejects (Demo.calm q price))
        (generateTradeId (Demo.calm q price)).

(** A take-profit order to sell at 60. *)
Definition takeProfit60 : Order.t :=
  Order.mk "o8" "alice" "wallet-of-alice" TAKE_PROFIT SELL PENDING "mintA" "mintB"
    (Fin 10) None None (Some (Fin 60)) None (Fin (1 # 100)) 5 5 None.

(** A market order of another user, left PENDING. *)
Definition strandedMarket : Order.t :=
  Order.mk "o9" "bob" "wallet-of-bob" MARKET BUY PENDING "mintA" "mintB"
    (Fin 10) None None None None (Fin (1 # 100)) 6 6 None.

(** An order that was filled before. *)
Definition filledBefore : Order.t :=
  Order.mk "o10" "bob" "wallet-of-bob" LIMIT SELL FILLED "mintA" "mintB"
    (Fin 10) (Some (Fin 50)) None None None (Fin (1 # 100)) 0 3 None.

End Samples.

(** * Properties *)

(** ** Arithmetic of the slippage gate *)

Lemma Qzerob_false (q : Q) : ~ q == 0 -> Qzerob q = false.
Proof.
  intro H. unfold Qzerob. destruct (Qeq_bool q 0) eqn:E; [|reflexivity].
  apply Qeq_bool_eq in E. contradiction.
Qed.

Lemma Qzerob_true (q : Q) : q == 0 -> Qzerob q = true.
Proof. intro H. unfold Qzerob. now apply Qeq_eq_bool. Qed.


Lemma Qltb_false (a b : Q) : Qltb a b = false <-> b <= a.
Proof.
  unfold Qltb. rewrite negb_false_iff, Qle_bool_iff. reflexivity.
Qed.

(** With a positive limit price or, failing a limit price, a positive
    market price, the code's [limitPrice || marketPrice] is the reference
    price of the specification. *)
Lemma expectedPrice_reference (order : Order.t) (P : Q) :
  referencePrice order = Some (Fin P) -> 0 < P ->
  expectedPrice order = Some (Fin P).
Proof.
  unfold referencePrice, expectedPrice, or_else. intros H HP.
  destruct (Order.limitPrice order) as [p|] eqn:E.
  - inversion H; subst. simpl.
    rewrite Qzerob_false by lra. reflexivity.
  - simpl. exact H.
Qed.



(** ** C10: the boundary of the slippage gate *)



(** ** Running the service *)


(** An order that the risk gate and the slippage gate let through is sent
    to the venue: the swap is submitted with the quote. *)
Lemma executeMarketOrder_submits_swap
    (env : Env) (order : Order.t) (quote : Quote.t) (w : World) (rc : Check.t) :
  validateOrder env (now w) order = Ok rc -> Check.isValid rc = true ->
  getQuote env (S (now w)) (Order.inputMint order) (Order.outputMint order)
    (Order.amount order) = Ok (Some quote) ->
  Check.isValid (checkSlippage order quote) = true ->
  In (CExecuteSwap quote (Order.userWallet order) (Order.slippageTolerance order))
     (calls (snd (executeMarketOrder env order w))).
Proof.
  intros Hrisk Hvalid Hquote Hslip.
  run. rewrite Hrisk, Hvalid. run. rewrite Hquote, Hslip. run.
  split_answers; simpl; tauto.
Qed.

(** ** C9: orders without a usable reference price *)

(** C9 as stated fails: with no limit price and a recorded market price of
    0 the expected price is 0, the slippage of a quote at price 1 is
    [Infinity], and the quote is rejected. *)
Lemma checkSlippage_zero_marketPrice_rejected :
  ~ (forall (order : Order.t) (quote : Quote.t),
       absent_or_zero (Order.limitPrice order) ->
       absent_or_zero (Order.marketPrice order) ->
       Check.isValid (checkSlippage order quote) = true).
Proof.
  intro H.
  specialize (H Demo.market0 (Demo.quote 1 1)).
  assert (E : Check.isValid (checkSlippage Demo.market0 (Demo.quote 1 1)) = false)
    by reflexivity.
  rewrite H in E; [discriminate E | left; reflexivity |].
  right. exists 0. split; reflexivity.
Qed.

Lemma truthy_absent_or_zero (v : option num) :
  absent_or_zero v -> truthy v = false.
Proof.
  intros [-> | [q [-> Hq]]]; simpl; [reflexivity|].
  now rewrite Qzerob_true.
Qed.

(** C9, amended.  For every order whose limit price is absent or zero and
    whose recorded market price is absent, the computed slippage of every
    quote is [NaN], the comparison with the tolerance is false whatever the
    tolerance, and [checkSlippage] accepts the quote; so
    [executeMarketOrder], once the risk gate has let the order through,
    submits the swap with whatever quote the venue returned. *)
Theorem checkSlippage_without_reference_price
    (order : Order.t) (quote : Quote.t) :
  absent_or_zero (Order.limitPrice order) ->
  Order.marketPrice order = None ->
  slippageOf order quote = NaN
  /\ gtb (slippageOf order quote) (Order.slippageTolerance order) = false
  /\ checkSlippage order quote = Check.mk true None
  /\ forall (env : Env) (w : World) (rc : Check.t),
       validateOrder env (now w) order = Ok rc -> Check.isValid rc = true ->
       getQuote env (S (now w)) (Order.inputMint order) (Order.outputMint order)
         (Order.amount order) = Ok (Some quote) ->
       In (CExecuteSwap quote (Order.userWallet order)
             (Order.slippageTolerance order))
          (calls (snd (executeMarketOrder env order w))).
Proof.
  intros HL HM.
  assert (Hs : slippageOf order quote = NaN).
  { unfold slippageOf, expectedPrice, or_else.
    rewrite (truthy_absent_or_zero _ HL), HM. simpl.
    destruct (abs (sub (quotedPrice quote) NaN)); reflexivity. }
  assert (Hg : gtb (slippageOf order quote) (Order.slippageTolerance order) = false).
  { rewrite Hs. unfold gtb.
    destruct (Order.slippageTolerance order); reflexivity. }
  assert (Hc : checkSlippage order quote = Check.mk true None).
  { unfold checkSlippage. rewrite Hg. reflexivity. }
  split; [exact Hs|]. split; [exact Hg|]. split; [exact Hc|].
  intros env w rc Hrisk Hvalid Hquote.
  apply (executeMarketOrder_submits_swap env order quote w rc Hrisk Hvalid Hquote).
  rewrite Hc. reflexivity.
Qed.

(** The order the trading controller builds for a market order, and a
    quote a hundred times off any sensible price. *)
Lemma checkSlippage_without_reference_price_witness :
  slippageOf Demo.marketBare (Demo.quote 1 100) = NaN
  /\ checkSlippage Demo.marketBare (Demo.quote 1 100) = Check.mk true None
  /\ In (CExecuteSwap (Demo.quote 1 100) "wallet-of-alice"%string (Fin (1 # 100)))
        (calls (snd (executeMarketOrder
                       (Demo.calm (Demo.quote 1 100) (Fin 100))
                       Demo.marketBare (Demo.world [Demo.marketBare])))).
Proof.
  destruct (checkSlippage_without_reference_price
              Demo.marketBare (Demo.quote 1 100))
    as (Hnan & _ & Haccept & Hswap);
    [left; reflexivity | reflexivity |].
  split; [exact Hnan|]. split; [exact Haccept|].
  exact (Hswap (Demo.calm (Demo.quote 1 100) (Fin 100))
           (Demo.world [Demo.marketBare]) (Check.mk true None)
           eq_refl eq_refl eq_refl).
Defined.

(** ** C4: the slippage gate *)





(** ** What every step of the service respects *)

Section Preservation.

Variable R : World -> World -> Prop.
Hypothesis HR : Stepwise R.

Lemma preserves_ret {A} (a : A) : preserves R (ret a).
Proof. intro w. apply (step_refl R HR). Qed.

Lemma preserves_bind {A B} (m : M A) (k : A -> M B) :
  preserves R m -> (forall a, preserves R (k a)) -> preserves R (bind m k).
Proof.
  intros Hm Hk w. unfold bind. specialize (Hm w).
  destruct (m w) as [[a | e] w1]; simpl in *.
  - apply (step_trans R HR _ w1); [exact Hm | apply Hk].
  - exact Hm.
Qed.

Lemma preserves_try_catch {A} (m : M A) (h : string -> M A) :
  preserves R m -> (forall e, preserves R (h e)) -> preserves R (try_catch m h).
Proof.
  intros Hm Hh w. unfold try_catch. specialize (Hm w).
  destruct (m w) as [[a | e] w1]; simpl in *.
  - exact Hm.
  - apply (step_trans R HR _ w1); [exact Hm | apply Hh].
Qed.

Lemma preserves_await {A} (c : Call) (answer : nat -> Res A) :
  preserves R (await c answer).
Proof. intro w. apply (step_tick R HR). Qed.

Lemma preserves_query (env : Env) (s : Statement) :
  issued s -> preserves R (query env s).
Proof.
  intros Hs w. unfold query.
  destruct (poolRejects env (now w) s); simpl.
  - apply (step_tick R HR).
  - apply (step_trans R HR _ (tick (CQuery s) w)).
    + apply (step_tick R HR).
    + apply (step_commit R HR). exact Hs.
Qed.

Lemma preserves_applyToPortfolio (env : Env) (t : Trade.t) :
  preserves R (applyToPortfolio env t).
Proof.
  intro w. unfold applyToPortfolio.
  destruct (updatePortfolioAfterTrade env (now w) t); simpl.
  - apply (step_trans R HR _ (tick (CUpdatePortfolio t) w)).
    + apply (step_tick R HR).
    + apply (step_applied R HR).
  - apply (step_tick R HR).
Qed.

Lemma preserves_updateOrderStatus (env : Env) (orderId : string)
    (status : OrderStatus) (reason : option string) :
  status = REJECTED \/ status = FAILED \/ status = FILLED ->
  preserves R (updateOrderStatus env orderId status reason).
Proof.
  intro Hs. unfold updateOrderStatus.
  apply preserves_bind; [apply preserves_query; exact Hs|].
  intro. apply preserves_ret.
Qed.

Lemma preserves_createTrade (env : Env) (order : Order.t)
    (swapResult : SwapResult.t) (quote : Quote.t) :
  preserves R (createTrade env order swapResult quote).
Proof.
  intro w. unfold createTrade.
  apply preserves_bind; [apply preserves_query; exact I|].
  intro. apply preserves_ret.
Qed.

Ltac preserve_step :=
  first
    [ apply preserves_ret
    | apply preserves_await
    | apply preserves_createTrade
    | apply preserves_applyToPortfolio
    | apply preserves_updateOrderStatus; tauto
    | match goal with
      | |- preserves _ (bind _ _) => apply preserves_bind; [|intro]
      | |- preserves _ (try_catch _ _) => apply preserves_try_catch; [|intro]
      | |- preserves _ (if ?b then _ else _) => destruct b
      | |- preserves _ (match ?x with _ => _ end) => destruct x
      | |- preserves _ (let _ := _ in _) => cbv zeta
      end ].

Lemma preserves_executeMarketOrder (env : Env) (order : Order.t) :
  preserves R (executeMarketOrder env order).
Proof. unfold executeMarketOrder. repeat preserve_step. Qed.

(** Once the risk manager has been called, the rest of
    [executeMarketOrder] respects [R]. *)
Lemma executeMarketOrder_after_risk_call (env : Env) (order : Order.t)
    (w : World) :
  R (tick (CValidateOrder order) w) (snd (executeMarketOrder env order w)).
Proof.
  unfold executeMarketOrder.
  match goal with
  | |- R _ (snd (try_catch (bind (await ?c ?ans) ?k) ?h w)) =>
      assert (Hk : forall a, preserves R (try_catch (k a) h))
        by (intro; repeat preserve_step);
      assert (Hh : forall e, preserves R (h e))
        by (intro; repeat preserve_step);
      unfold try_catch at 1, bind at 1, await;
      destruct (ans (now w)) as [a | e];
      [ exact (Hk a (tick c w)) | exact (Hh e (tick c w)) ]
  end.
Qed.

Ltac preserve :=
  repeat first
    [ apply preserves_executeMarketOrder
    | apply preserves_query; simpl; tauto
    | preserve_step ].

Lemma preserves_executeLimitOrder (env : Env) (order : Order.t) :
  preserves R (executeLimitOrder env order).
Proof.
  unfold executeLimitOrder, currentPriceOf. preserve.
Qed.

Lemma preserves_executeStopLossOrder (env : Env) (order : Order.t) :
  preserves R (executeStopLossOrder env order).
Proof.
  unfold executeStopLossOrder, currentPriceOf. preserve.
Qed.

Lemma preserves_executeTakeProfitOrder (env : Env) (order : Order.t) :
  preserves R (executeTakeProfitOrder env order).
Proof.
  unfold executeTakeProfitOrder, currentPriceOf. preserve.
Qed.

Lemma preserves_dispatch (env : Env) (order : Order.t) :
  preserves R (dispatch env order).
Proof.
  unfold dispatch. destruct (Order.type order); preserve;
    auto using preserves_executeLimitOrder, preserves_executeStopLossOrder,
      preserves_executeTakeProfitOrder.
Qed.

Lemma preserves_forEachOrder (env : Env) (pendingOrders : list Order.t) :
  preserves R (forEachOrder env pendingOrders).
Proof.
  induction pendingOrders as [|order rest IH]; simpl.
  - apply preserves_ret.
  - apply preserves_bind; [apply preserves_dispatch | intro; exact IH].
Qed.

Lemma preserves_processPendingOrders (env : Env) :
  preserves R (processPendingOrders env).
Proof.
  unfold processPendingOrders, getPendingOrders.
  apply preserves_try_catch; [|intro; apply preserves_ret].
  apply preserves_bind.
  - apply preserves_bind; [apply preserves_query; reflexivity|].
    intro. apply preserves_ret.
  - intro. apply preserves_forEachOrder.
Qed.

Lemma preserves_cancelOrder (env : Env) (orderId userId : string) :
  preserves R (cancelOrder env orderId userId).
Proof.
  unfold cancelOrder.
  apply preserves_try_catch; [|intro; apply preserves_ret].
  apply preserves_bind; [apply preserves_query; split; reflexivity|].
  intro. apply preserves_ret.
Qed.

End Preservation.

(** *** The clock *)

Lemma clockAdvances_stepwise : Stepwise clockAdvances.
Proof.
  constructor; unfold clockAdvances; simpl; intros; lia.
Qed.

(** *** Terminal statuses *)

Lemma issued_writes_terminal (s : Statement) (t : nat) (o : Order.t) :
  issued s ->
  Order.id o = Order.id (if selects s o then rewrite s t o else o)
  /\ (terminal (Order.status o) = true ->
      terminal (Order.status (if selects s o then rewrite s t o else o)) = true).
Proof.
  intro Hs. destruct (selects s o); [|tauto].
  destruct s as [status reason orderId | status orderId userId expected | tr | status];
    simpl in *; split; try reflexivity; try tauto.
  - intros _. destruct Hs as [-> | [-> | ->]]; reflexivity.
  - intros _. destruct Hs as [-> _]; reflexivity.
Qed.

Lemma terminalKept_stepwise : Stepwise terminalKept.
Proof.
  constructor; unfold terminalKept; simpl.
  - intro w. induction (orders w); constructor; tauto.
  - intros w1 w2 w3. generalize (orders w1) (orders w2) (orders w3).
    intros l1 l2 l3 H12. revert l3.
    induction H12 as [|a b l1 l2 [Hid Hab] _ IH]; intros l3 H23;
      inversion H23; subst; constructor.
    + destruct H1 as [Hid' Hbc]. split; [congruence | tauto].
    + apply IH. assumption.
  - intros _ w. induction (orders w); constructor; tauto.
  - intros s t w Hs. unfold run_orders.
    induction (orders w) as [|o l IH]; simpl; constructor;
      [apply issued_writes_terminal; exact Hs | exact IH].
  - intros _ w. induction (orders w); constructor; tauto.
Qed.

(** Whatever the collaborators answer, no operation of the service moves
    an order out of a terminal status into a non-terminal one. *)
Lemma terminal_never_reopened (env : Env) (order : Order.t)
    (orderId userId : string) (w : World) :
  terminalKept w (snd (executeMarketOrder env order w))
  /\ terminalKept w (snd (executeLimitOrder env order w))
  /\ terminalKept w (snd (executeStopLossOrder env order w))
  /\ terminalKept w (snd (executeTakeProfitOrder env order w))
  /\ terminalKept w (snd (cancelOrder env orderId userId w))
  /\ terminalKept w (snd (processPendingOrders env w)).
Proof.
  pose proof terminalKept_stepwise as H.
  repeat split.
  - apply (preserves_executeMarketOrder _ H).
  - apply (preserves_executeLimitOrder _ H).
  - apply (preserves_executeStopLossOrder _ H).
  - apply (preserves_executeTakeProfitOrder _ H).
  - apply (preserves_cancelOrder _ H).
  - apply (preserves_processPendingOrders _ H).
Qed.

(** ** C8: the risk gate *)



(** The rows of other orders are left as they are, and the rows of the
    order carry the verdict. *)
Lemma run_orders_verdict (status : OrderStatus) (reason : option string)
    (order : Order.t) (t : nat) (tbl : list Order.t) (o : Order.t) :
  In o tbl ->
  (Order.id o <> Order.id order ->
   In o (run_orders (verdict status reason order) t tbl))
  /\ (Order.id o = Order.id order ->
      In (Order.with_status_reason status reason t o)
         (run_orders (verdict status reason order) t tbl)).
Proof.
  intro Hin. unfold run_orders.
  split; intro Hid;
    apply in_map_iff; exists o; (split; [|exact Hin]); simpl.
  - apply String.eqb_neq in Hid. now rewrite Hid.
  - apply String.eqb_eq in Hid. now rewrite Hid.
Qed.

(** ** C7: cancelling an order *)

Lemma OrderStatus_eqb_eq (a b : OrderStatus) :
  OrderStatus_eqb a b = true <-> a = b.
Proof. destruct a, b; simpl; split; congruence. Qed.

(** The WHERE clause holds of the rows of the order that are owned by the
    user and PENDING, and of no other row. *)
Lemma cancellable_iff (orderId userId : string) (o : Order.t) :
  cancellable orderId userId o = true
  <-> Order.id o = orderId /\ Order.userId o = userId
      /\ Order.status o = PENDING.
Proof.
  unfold cancellable.
  rewrite !andb_true_iff, !String.eqb_eq, OrderStatus_eqb_eq. tauto.
Qed.

Lemma some_row_selected (f : Order.t -> bool) (l : list Order.t) :
  Nat.ltb 0 (List.length (filter f l)) = existsb f l.
Proof.
  induction l as [|o l IH]; simpl; [reflexivity|].
  destruct (f o); simpl; [reflexivity | exact IH].
Qed.


(** The owner cancels a PENDING order once; another user cannot, and a
    second attempt finds the order CANCELLED. *)
Example cancelOrder_samples :
  let env := Demo.calm (Demo.quote 10 500) (Fin 45) in
  let w := Demo.world [Demo.sell50; Demo.market100] in
  let w1 := snd (cancelOrder env "o1" "alice" w) in
  fst (cancelOrder env "o1" "bob" w) = Ok false
  /\ Demo.verdicts (snd (cancelOrder env "o1" "bob" w))
     = [("o1"%string, PENDING, None); ("o2"%string, PENDING, None)]
  /\ fst (cancelOrder env "o1" "alice" w) = Ok true
  /\ Demo.verdicts w1
     = [("o1"%string, CANCELLED, None); ("o2"%string, PENDING, None)]
  /\ fst (cancelOrder env "o1" "alice" w1) = Ok false
  /\ Demo.verdicts (snd (cancelOrder env "o1" "alice" w1)) = Demo.verdicts w1.
Proof. cbv zeta. repeat split; reflexivity. Qed.

(** ** C5 and C6: the triggers of limit and stop-loss orders *)

(** A delegation to [executeMarketOrder] always shows: the risk manager is
    called, so the clock moves. *)
Lemma delegateToMarketOrder_advances (env : Env) (order : Order.t) (w : World) :
  (now w < now (snd (delegateToMarketOrder env order w)))%nat.
Proof.
  pose proof (executeMarketOrder_after_risk_call _ clockAdvances_stepwise
                env order w) as H.
  unfold clockAdvances in H. simpl in H.
  unfold delegateToMarketOrder, try_catch, ret.
  destruct (executeMarketOrder env order w) as [[a | e] w']; simpl in *; lia.
Qed.

Lemma delegateToMarketOrder_not_noop (env : Env) (order : Order.t) (w : World) :
  delegateToMarketOrder env order w <> (Ok None, w).
Proof.
  intro H. pose proof (delegateToMarketOrder_advances env order w) as Hlt.
  rewrite H in Hlt. simpl in Hlt. lia.
Qed.

(** No number is below or equal to [NaN]. *)
Lemma leb_NaN_r (x : num) : leb x NaN = false.
Proof. destruct x; reflexivity. Qed.

(** The code of the limit trigger decides the trigger of the
    specification. *)
Lemma shouldExecuteLimitOrder_iff (order : Order.t) (p L : Q) :
  Order.limitPrice order = Some (Fin L) ->
  shouldExecuteLimitOrder order (Fin p) = true
  <-> limitTrigger (Order.side order) p L.
Proof.
  intro HL. unfold shouldExecuteLimitOrder, limitTrigger, geb.
  rewrite HL. destruct (Order.side order); simpl; apply Qle_bool_iff.
Qed.

(** The code of the stop-loss trigger decides the trigger of the
    specification. *)
Lemma shouldExecuteStopLoss_iff (order : Order.t) (p stop : Q) :
  Order.stopPrice order = Some (Fin stop) ->
  shouldExecuteStopLoss order (Fin p) = true
  <-> stopLossTrigger (Order.side order) p stop.
Proof.
  intro HS. unfold shouldExecuteStopLoss, stopLossTrigger.
  rewrite HS. destruct (Order.side order); simpl.
  - split; [discriminate | intros [H _]; discriminate H].
  - rewrite Qle_bool_iff. tauto.
Qed.

(** C5.  For every limit order: when the current price is unavailable,
    [executeLimitOrder] returns no trade and leaves the orders, the trades
    and the portfolio as they are; when the price feed answers a price [p]
    and the order has the limit price [L], it delegates to
    [executeMarketOrder] if and only if the trigger holds ([p <= L] for
    BUY, [p >= L] for SELL, equality included), and is such a no-op
    otherwise; an order without a limit price is never triggered. *)
Theorem executeLimitOrder_trigger (env : Env) (order : Order.t) (w : World) :
  let answer :=
    getTokenPrice env (now w) (Order.inputMint order) (Order.outputMint order) in
  let w1 := afterPriceCall order w in
  (orders w1 = orders w /\ trades w1 = trades w /\ portfolio w1 = portfolio w)
  /\ (priceUnavailable answer -> executeLimitOrder env order w = (Ok None, w1))
  /\ (forall p L : Q,
        answer = Ok (Some (Fin p)) -> ~ p == 0 ->
        Order.limitPrice order = Some (Fin L) ->
        (executeLimitOrder env order w = delegateToMarketOrder env order w1
         <-> limitTrigger (Order.side order) p L)
        /\ (~ limitTrigger (Order.side order) p L ->
            executeLimitOrder env order w = (Ok None, w1)))
  /\ (Order.limitPrice order = None ->
      executeLimitOrder env order w = (Ok None, w1)).
Proof.
  cbv zeta. split; [repeat split|]. split; [|split].
  - intro Hna. unfold executeLimitOrder, currentPriceOf. run.
    destruct (getTokenPrice env (now w) _ _) as [p | e]; simpl in *;
      [rewrite Hna|]; reflexivity.
  - intros p L Hp Hp0 HL.
    pose proof (shouldExecuteLimitOrder_iff order p L HL) as Hiff.
    assert (Hrun : executeLimitOrder env order w
                   = if shouldExecuteLimitOrder order (Fin p)
                     then delegateToMarketOrder env order (afterPriceCall order w)
                     else (Ok None, afterPriceCall order w)).
    { unfold executeLimitOrder, currentPriceOf, delegateToMarketOrder,
        afterPriceCall.
      unfold try_catch at 1, bind, await. rewrite Hp. simpl.
      rewrite (Qzerob_false p Hp0). simpl.
      destruct (shouldExecuteLimitOrder order (Fin p)); reflexivity. }
    rewrite Hrun.
    destruct (shouldExecuteLimitOrder order (Fin p)).
    + split; [tauto|]. intro Hn. exfalso. apply Hn, Hiff. reflexivity.
    + split; [|reflexivity]. split.
      * intro H. symmetry in H.
        exfalso. exact (delegateToMarketOrder_not_noop _ _ _ H).
      * intro H. apply Hiff in H. discriminate H.
  - intro HL. unfold executeLimitOrder, currentPriceOf, shouldExecuteLimitOrder, geb.
    rewrite HL. run.
    destruct (getTokenPrice env (now w) _ _) as [p | e]; simpl;
      [|reflexivity].
    destruct (truthy p); simpl; [|reflexivity].
    rewrite leb_NaN_r. destruct (Order.side order); reflexivity.
Qed.

(** C6.  For every stop-loss order whose price feed answers a price [p]
    and whose stop price is [stop], [executeStopLossOrder] delegates to
    [executeMarketOrder] if and only if the side is SELL and [p <= stop]; and
    for every BUY-side order, whatever the price feed answers, it returns
    no trade and leaves the orders, the trades and the portfolio as they
    are (as it does for an order without a stop price). *)
Theorem executeStopLossOrder_trigger (env : Env) (order : Order.t) (w : World) :
  let answer :=
    getTokenPrice env (now w) (Order.inputMint order) (Order.outputMint order) in
  let w1 := afterPriceCall order w in
  (orders w1 = orders w /\ trades w1 = trades w /\ portfolio w1 = portfolio w)
  /\ (Order.side order = BUY -> executeStopLossOrder env order w = (Ok None, w1))
  /\ (forall p stop : Q,
        answer = Ok (Some (Fin p)) -> ~ p == 0 ->
        Order.stopPrice order = Some (Fin stop) ->
        (executeStopLossOrder env order w = delegateToMarketOrder env order w1
         <-> stopLossTrigger (Order.side order) p stop)
        /\ (~ stopLossTrigger (Order.side order) p stop ->
            executeStopLossOrder env order w = (Ok None, w1)))
  /\ (Order.stopPrice order = None ->
      executeStopLossOrder env order w = (Ok None, w1)).
Proof.
  cbv zeta. split; [repeat split|]. split; [|split].
  - intro Hbuy. unfold executeStopLossOrder, currentPriceOf, shouldExecuteStopLoss.
    rewrite Hbuy. run.
    destruct (getTokenPrice env (now w) _ _) as [p | e]; simpl;
      [destruct (truthy p)|]; reflexivity.
  - intros p stop Hp Hp0 HS.
    pose proof (shouldExecuteStopLoss_iff order p stop HS) as Hiff.
    assert (Hrun : executeStopLossOrder env order w
                   = if shouldExecuteStopLoss order (Fin p)
                     then delegateToMarketOrder env order (afterPriceCall order w)
                     else (Ok None, afterPriceCall order w)).
    { unfold executeStopLossOrder, currentPriceOf, delegateToMarketOrder,
        afterPriceCall.
      unfold try_catch at 1, bind, await. rewrite Hp. simpl.
      rewrite (Qzerob_false p Hp0). simpl.
      destruct (shouldExecuteStopLoss order (Fin p)); reflexivity. }
    rewrite Hrun.
    destruct (shouldExecuteStopLoss order (Fin p)).
    + split; [tauto|]. intro Hn. exfalso. apply Hn, Hiff. reflexivity.
    + split; [|reflexivity]. split.
      * intro H. symmetry in H.
        exfalso. exact (delegateToMarketOrder_not_noop _ _ _ H).
      * intro H. apply Hiff in H. discriminate H.
  - intro HS. unfold executeStopLossOrder, currentPriceOf, shouldExecuteStopLoss.
    rewrite HS. run.
    destruct (getTokenPrice env (now w) _ _) as [p | e]; simpl;
      [|reflexivity].
    destruct (truthy p); simpl; [|reflexivity].
    rewrite leb_NaN_r. destruct (Order.side order); reflexivity.
Qed.

(** A limit order to sell at 50: at a price of 51 it is handed to
    [executeMarketOrder], at 50 as well, at 45 it waits. *)
Lemma executeLimitOrder_trigger_witness :
  let env p := Demo.calm (Demo.quote 10 500) (Fin p) in
  let w := Demo.world [Demo.sell50] in
  executeLimitOrder (env 51) Demo.sell50 w
  = delegateToMarketOrder (env 51) Demo.sell50 (afterPriceCall Demo.sell50 w)
  /\ executeLimitOrder (env 50) Demo.sell50 w
     = delegateToMarketOrder (env 50) Demo.sell50 (afterPriceCall Demo.sell50 w)
  /\ executeLimitOrder (env 45) Demo.sell50 w
     = (Ok None, afterPriceCall Demo.sell50 w).
Proof.
  cbv zeta.
  pose (trig := fun p =>
          executeLimitOrder_trigger (Demo.calm (Demo.quote 10 500) (Fin p))
            Demo.sell50 (Demo.world [Demo.sell50])).
  split; [|split].
  - destruct (trig 51) as (_ & _ & H & _).
    destruct (H 51 50 eq_refl) as [Hiff _];
      [intro E; discriminate E | reflexivity |].
    apply Hiff. intro E; discriminate E.
  - destruct (trig 50) as (_ & _ & H & _).
    destruct (H 50 50 eq_refl) as [Hiff _];
      [intro E; discriminate E | reflexivity |].
    apply Hiff. intro E; discriminate E.
  - destruct (trig 45) as (_ & _ & H & _).
    destruct (H 45 50 eq_refl) as [_ Hno];
      [intro E; discriminate E | reflexivity |].
    apply Hno. intro E. apply E. reflexivity.
Defined.

(** A stop at 40: the SELL order is handed to [executeMarketOrder] at a
    price of 40 and waits at 41; the BUY order waits at 39. *)
Lemma executeStopLossOrder_trigger_witness :
  let env p := Demo.calm (Demo.quote 10 400) (Fin p) in
  let w := Demo.world [Demo.stopLoss; Demo.stopLossBuy] in
  executeStopLossOrder (env 40) Demo.stopLoss w
  = delegateToMarketOrder (env 40) Demo.stopLoss (afterPriceCall Demo.stopLoss w)
  /\ executeStopLossOrder (env 41) Demo.stopLoss w
     = (Ok None, afterPriceCall Demo.stopLoss w)
  /\ executeStopLossOrder (env 39) Demo.stopLossBuy w
     = (Ok None, afterPriceCall Demo.stopLossBuy w).
Proof.
  cbv zeta.
  pose (trig := fun p o =>
          executeStopLossOrder_trigger (Demo.calm (Demo.quote 10 400) (Fin p))
            o (Demo.world [Demo.stopLoss; Demo.stopLossBuy])).
  split; [|split].
  - destruct (trig 40 Demo.stopLoss) as (_ & _ & H & _).
    destruct (H 40 40 eq_refl) as [Hiff _];
      [intro E; discriminate E | reflexivity |].
    apply Hiff. split; [reflexivity | intro E; discriminate E].
  - destruct (trig 41 Demo.stopLoss) as (_ & _ & H & _).
    destruct (H 41 40 eq_refl) as [_ Hno];
      [intro E; discriminate E | reflexivity |].
    apply Hno. intros [_ E]. apply E. reflexivity.
  - destruct (trig 39 Demo.stopLossBuy) as (_ & Hbuy & _).
    apply Hbuy. reflexivity.
Defined.

(** ** C1: a [null] result after the trade has been recorded *)

(** C1 at the failing input: the risk gate passes, the venue quotes the
    reference price and settles the swap, the trade is inserted, and the
    portfolio manager then throws.  [executeMarketOrder] returns [null]
    and marks the order FAILED with the message of the exception, although
    the swap was submitted and its trade is in the table. *)
Theorem executeMarketOrder_null_after_trade :
  let env := Demo.portfolioDown (Demo.quote 10 1000) (Fin 100) in
  let w := Demo.world [Demo.market100] in
  let w' := snd (executeMarketOrder env Demo.market100 w) in
  fst (executeMarketOrder env Demo.market100 w) = Ok None
  /\ Demo.tradedOrders w = []
  /\ Demo.tradedOrders w' = ["o2"%string]
  /\ Demo.verdicts w'
     = [("o2"%string, FAILED, Some "portfolio service unavailable"%string)]
  /\ In (CExecuteSwap (Demo.quote 10 1000) "wallet-of-alice"%string (Fin (1 # 100)))
        (calls w').
Proof.
  cbv zeta. repeat split; try reflexivity.
  vm_compute. tauto.
Qed.

(** A [null] result comes with a recorded trade only on that path: the
    trade of the order was inserted, and then the portfolio manager threw
    or the store rejected the final update to FILLED. *)
Lemma executeMarketOrder_null_with_trade
    (env : Env) (order : Order.t) (w : World) :
  fst (executeMarketOrder env order w) = Ok None ->
  trades (snd (executeMarketOrder env order w)) <> trades w ->
  exists trade,
    trades (snd (executeMarketOrder env order w)) = trades w ++ [trade]
    /\ Trade.orderId trade = Order.id order
    /\ ((exists e, updatePortfolioAfterTrade env (4 + now w) trade = Throw e)
        \/ (exists e, poolRejects env (5 + now w) (verdict FILLED None order)
                      = Some e)).
Proof.
  run. unfold checkSlippage, verdict.
  split_answers; intros Hnull Htrades;
    try discriminate Hnull;
    try (exfalso; apply Htrades; reflexivity);
    eexists; (split; [reflexivity|]); (split; [reflexivity|]); eauto.
Qed.

(** The only exception [executeMarketOrder] lets through is the one of the
    status write of its own catch block. *)
Lemma executeMarketOrder_throws_only_from_handler
    (env : Env) (order : Order.t) (w : World) (e : string) :
  fst (executeMarketOrder env order w) = Throw e ->
  exists t message,
    poolRejects env t (verdict FAILED (Some message) order) = Some e.
Proof.
  run. unfold checkSlippage, verdict.
  split_answers; intro Hthrow; try discriminate Hthrow;
    inversion Hthrow; subst; eauto.
Qed.

(** ** C2: one order's exception and the rest of the batch *)

(** An order that is not a take-profit order never makes the loop of
    [processPendingOrders] throw. *)
Lemma dispatch_isolated (env : Env) (order : Order.t) (w : World) :
  Order.type order <> TAKE_PROFIT ->
  fst (dispatch env order w) = Ok tt.
Proof.
  intro Htype. unfold dispatch.
  destruct (Order.type order); try congruence; try reflexivity.
  - unfold bind, ret, executeLimitOrder, try_catch.
    destruct (bind _ _ w) as [[a | e] w']; reflexivity.
  - unfold bind, ret, executeStopLossOrder, try_catch.
    destruct (bind _ _ w) as [[a | e] w']; reflexivity.
Qed.

(** In a batch, the orders that follow limit, stop-loss, market and
    trailing-stop orders are always reached. *)
Lemma forEachOrder_reaches (env : Env) (before : list Order.t)
    (order : Order.t) (after : list Order.t) (w : World) :
  Forall (fun o => Order.type o <> TAKE_PROFIT) before ->
  exists w1,
    forEachOrder env (before ++ order :: after) w
    = forEachOrder env (order :: after) w1.
Proof.
  intro Hbefore. revert w.
  induction Hbefore as [|o before Ho _ IH]; intro w.
  - exists w. reflexivity.
  - pose proof (dispatch_isolated env o w Ho) as Hd.
    destruct (IH (snd (dispatch env o w))) as [w1 Hw1].
    exists w1. rewrite <- Hw1.
    cbn [app forEachOrder]. unfold bind at 1.
    destruct (dispatch env o w) as [[[] | e] w']; simpl in *;
      [reflexivity | discriminate Hd].
Qed.

(** A take-profit order whose price request throws ends the loop: the
    orders after it are not looked at. *)
Lemma forEachOrder_take_profit_throws (env : Env) (order : Order.t)
    (rest : list Order.t) (w : World) (e : string) :
  Order.type order = TAKE_PROFIT ->
  getTokenPrice env (now w) (Order.inputMint order) (Order.outputMint order)
  = Throw e ->
  forEachOrder env (order :: rest) w = (Throw e, afterPriceCall order w).
Proof.
  intros Htype Hprice. cbn [forEachOrder]. unfold dispatch. rewrite Htype.
  run. rewrite Hprice. reflexivity.
Qed.

(** C2 at the failing input: the batch is a take-profit order followed by
    a limit order to sell at 50, the price feed times out on the first
    request and says 51 afterwards.  The exception of the take-profit order
    leaves [executeTakeProfitOrder], ends the loop, and the limit order is
    never evaluated: the price feed is asked once and the order stays
    PENDING.  With a stop-loss order in the place of the take-profit order
    the limit order is evaluated and FILLED. *)
Theorem processPendingOrders_take_profit_aborts :
  let env := Demo.priceDownAt 1 (Demo.quote 10 500) (Fin 51) in
  let w := Demo.world [Demo.takeProfit; Demo.sell50] in
  let w' := snd (processPendingOrders env w) in
  let v := Demo.world [Demo.stopLoss; Demo.sell50] in
  let v' := snd (processPendingOrders env v) in
  fst (getPendingOrders env w) = Ok [Demo.takeProfit; Demo.sell50]
  /\ fst (executeTakeProfitOrder env Demo.takeProfit
            (snd (getPendingOrders env w))) = Throw "price feed timeout"%string
  /\ fst (processPendingOrders env w) = Ok tt
  /\ Demo.priceCalls w' = 1%nat
  /\ Demo.verdicts w' = [("o5"%string, PENDING, None); ("o1"%string, PENDING, None)]
  /\ fst (executeStopLossOrder env Demo.stopLoss
            (snd (getPendingOrders env v))) = Ok None
  /\ Demo.priceCalls v' = 2%nat
  /\ Demo.verdicts v' = [("o6"%string, PENDING, None); ("o1"%string, FILLED, None)].
Proof.
  cbv zeta. repeat split; reflexivity.
Qed.

(** ** C3: writes of the status *)

(** The WHERE clause of [updateOrderStatus] reads the id only: the row is
    selected whatever its status. *)
Lemma updateOrderStatus_unconditional (status : OrderStatus)
    (reason : option string) (current : OrderStatus) (t : nat) (o : Order.t) :
  selects (UpdateStatus status reason (Order.id o)) (Order.with_status current t o)
  = true.
Proof. simpl. apply String.eqb_refl. Qed.

(** C3 at the failing input: an order is cancelled, then
    [executeMarketOrder] runs on the order as it was read before.  The
    stored status goes from CANCELLED to FILLED and a trade is recorded;
    with a risk manager that turns the order down it goes from CANCELLED
    to REJECTED. *)
Theorem terminal_status_overwritten :
  let env := Demo.calm (Demo.quote 10 500) (Fin 51) in
  let w := Demo.world [Demo.sell50] in
  let w1 := snd (cancelOrder env "o1" "alice" w) in
  let w2 := snd (executeMarketOrder env Demo.sell50 w1) in
  let w2' := snd (executeMarketOrder
                    (Demo.blacklisting (Demo.quote 10 500) (Fin 51))
                    Demo.sell50 w1) in
  fst (cancelOrder env "o1" "alice" w) = Ok true
  /\ Demo.verdicts w1 = [("o1"%string, CANCELLED, None)]
  /\ Demo.verdicts w2 = [("o1"%string, FILLED, None)]
  /\ Demo.tradedOrders w2 = ["o1"%string]
  /\ Demo.verdicts w2'
     = [("o1"%string, REJECTED, Some "Token is blacklisted"%string)].
Proof.
  cbv zeta. repeat split; reflexivity.
Qed.

(** ** End-to-end runs *)

(** A market order quoted at its reference price is filled: one trade is
    recorded and applied to the portfolio (scenario 1 of the
    specification). *)
Example market_order_filled :
  let env := Demo.calm (Demo.quote 10 1000) (Fin 100) in
  let w := Demo.world [Demo.market100] in
  let w' := snd (executeMarketOrder env Demo.market100 w) in
  option_map Trade.orderId
    (match fst (executeMarketOrder env Demo.market100 w) with
     | Ok t => t
     | Throw _ => None
     end) = Some "o2"%string
  /\ Demo.verdicts w' = [("o2"%string, FILLED, None)]
  /\ Demo.tradedOrders w' = ["o2"%string]
  /\ map Trade.orderId (portfolio w') = ["o2"%string]
  /\ map Trade.id (trades w') = ["trade_3"%string].
Proof. cbv zeta. repeat split; reflexivity. Qed.

(** A limit order to sell at 50 stays PENDING while the price is 45 and is
    filled by the pass that sees 51 (scenario 3 of the specification). *)
Example limit_order_waits_then_fills :
  let w := Demo.world [Demo.sell50] in
  let w1 := snd (processPendingOrders (Demo.calm (Demo.quote 10 500) (Fin 45)) w) in
  let w2 := snd (processPendingOrders (Demo.calm (Demo.quote 10 500) (Fin 51)) w1) in
  Demo.verdicts w1 = [("o1"%string, PENDING, None)]
  /\ Demo.tradedOrders w1 = []
  /\ Demo.verdicts w2 = [("o1"%string, FILLED, None)]
  /\ Demo.tradedOrders w2 = ["o1"%string].
Proof. cbv zeta. repeat split; reflexivity. Qed.

(** [toFixed(2)] on a few values. *)
Example toFixed2_samples :
  toFixed2 (Fin 2) = "2.00"%string
  /\ toFixed2 (Fin (1234567 # 1000)) = "1234.57"%string
  /\ toFixed2 (Fin (- (5 # 1000))) = "-0.01"%string
  /\ toFixed2 PInf = "Infinity"%string
  /\ toFixed2 NaN = "NaN"%string.
Proof. repeat split; reflexivity. Qed.

(** * Further properties of the execution service *)

(** ** The paths of [executeMarketOrder] *)

(** A statement that selects no row leaves the table as it is. *)
Lemma run_orders_none_selected (s : Statement) (t : nat) (tbl : list Order.t) :
  Forall (fun o => selects s o = false) tbl -> run_orders s t tbl = tbl.
Proof.
  intro H. unfold run_orders.
  induction H as [|o l Ho _ IH]; simpl; [reflexivity|].
  rewrite Ho, IH. reflexivity.
Qed.

(** Inserting a trade and reading the pending orders write no order. *)
Lemma run_orders_insert (trade : Trade.t) (t : nat) (tbl : list Order.t) :
  run_orders (InsertTrade trade) t tbl = tbl.
Proof.
  apply run_orders_none_selected. induction tbl; constructor; auto.
Qed.

Lemma run_orders_select (status : OrderStatus) (t : nat) (tbl : list Order.t) :
  run_orders (SelectPending status) t tbl = tbl.
Proof.
  unfold run_orders. rewrite <- (map_id tbl) at 2.
  apply map_ext. intro o. simpl.
  destruct (OrderStatus_eqb (Order.status o) status); reflexivity.
Qed.

(** The run of the seven steps when every collaborator answers and the
    store takes every statement. *)
Lemma executeMarketOrder_filled_run
    (env : Env) (order : Order.t) (quote : Quote.t) (swapResult : SwapResult.t)
    (w : World) (rc : Check.t) :
  validateOrder env (now w) order = Ok rc -> Check.isValid rc = true ->
  getQuote env (1 + now w) (Order.inputMint order) (Order.outputMint order)
    (Order.amount order) = Ok (Some quote) ->
  Check.isValid (checkSlippage order quote) = true ->
  executeSwap env (2 + now w) quote (Order.userWallet order)
    (Order.slippageTolerance order) = Ok swapResult ->
  SwapResult.success swapResult = true ->
  poolRejects env (3 + now w)
    (InsertTrade (tradeAt env order swapResult quote (3 + now w))) = None ->
  updatePortfolioAfterTrade env (4 + now w)
    (tradeAt env order swapResult quote (3 + now w)) = Ok tt ->
  poolRejects env (5 + now w) (verdict FILLED None order) = None ->
  executeMarketOrder env order w
  = (Ok (Some (tradeAt env order swapResult quote (3 + now w))),
     afterFill env order quote swapResult w).
Proof.
  intros Hrisk Hvalid Hquote Hslip Hswap Hok Hinsert Hportfolio Hfilled.
  unfold verdict, tradeAt in *. cbn [Nat.add] in *.
  run. rewrite Hrisk, Hvalid. run. rewrite Hquote, Hslip. run.
  rewrite Hswap, Hok. run. rewrite Hinsert. run. rewrite Hportfolio. run.
  rewrite Hfilled. unfold afterFill, callsToSwap, callsToQuote, tradeAt.
  cbn [Nat.add]. unfold commit.
  cbn [orders trades portfolio now calls tick applied run_trades].
  rewrite run_orders_insert. reflexivity.
Qed.

(** X1.  When the risk manager validates the order, the venue returns a
    quote that passes the slippage gate and reports a successful swap, and
    the store and the portfolio manager take what they are sent,
    [executeMarketOrder] returns the trade it recorded: the trade carries
    the order's id, user, assets and side, the amounts of the quote, their
    quotient as price and the signature of the swap; it is the last row of
    the trades table and the head of the portfolio, and the rows of the
    order are FILLED without failure reason. *)
Theorem executeMarketOrder_fills
    (env : Env) (order : Order.t) (quote : Quote.t) (swapResult : SwapResult.t)
    (w : World) (rc : Check.t) :
  validateOrder env (now w) order = Ok rc -> Check.isValid rc = true ->
  getQuote env (1 + now w) (Order.inputMint order) (Order.outputMint order)
    (Order.amount order) = Ok (Some quote) ->
  Check.isValid (checkSlippage order quote) = true ->
  executeSwap env (2 + now w) quote (Order.userWallet order)
    (Order.slippageTolerance order) = Ok swapResult ->
  SwapResult.success swapResult = true ->
  poolRejects env (3 + now w)
    (InsertTrade (tradeAt env order swapResult quote (3 + now w))) = None ->
  updatePortfolioAfterTrade env (4 + now w)
    (tradeAt env order swapResult quote (3 + now w)) = Ok tt ->
  poolRejects env (5 + now w) (verdict FILLED None order) = None ->
  exists trade,
    executeMarketOrder env order w
    = (Ok (Some trade), afterFill env order quote swapResult w)
    /\ Trade.orderId trade = Order.id order
    /\ Trade.userId trade = Order.userId order
    /\ Trade.side trade = Order.side order
    /\ Trade.inputAmount trade = Quote.inAmount quote
    /\ Trade.outputAmount trade = Quote.outAmount quote
    /\ Trade.price trade = quotedPrice quote
    /\ Trade.signature trade = SwapResult.signature swapResult
    /\ Trade.status trade = TRADE_COMPLETED
    /\ trades (afterFill env order quote swapResult w) = trades w ++ [trade]
    /\ portfolio (afterFill env order quote swapResult w) = trade :: portfolio w
    /\ forall o, In o (orders w) -> Order.id o = Order.id order ->
         In (Order.with_status_reason FILLED None (5 + now w) o)
            (orders (afterFill env order quote swapResult w)).
Proof.
  intros Hrisk Hvalid Hquote Hslip Hswap Hok Hinsert Hportfolio Hfilled.
  exists (tradeAt env order swapResult quote (3 + now w)).
  split.
  - exact (executeMarketOrder_filled_run env order quote swapResult w rc
             Hrisk Hvalid Hquote Hslip Hswap Hok Hinsert Hportfolio Hfilled).
  - repeat split; try reflexivity.
    intros o Hin Hid.
    apply (run_orders_verdict FILLED None order (5 + now w) (orders w) o Hin).
    exact Hid.
Qed.

(** A market order quoted at its reference price, with every collaborator
    answering. *)
Lemma executeMarketOrder_fills_witness :
  exists trade,
    executeMarketOrder (Demo.calm (Demo.quote 10 1000) (Fin 100))
      Demo.market100 (Demo.world [Demo.market100])
    = (Ok (Some trade),
       afterFill (Demo.calm (Demo.quote 10 1000) (Fin 100)) Demo.market100
         (Demo.quote 10 1000) Demo.swapped (Demo.world [Demo.market100]))
    /\ Trade.orderId trade = "o2"%string
    /\ Trade.price trade = Fin (1000 / 10).
Proof.
  destruct (executeMarketOrder_fills
              (Demo.calm (Demo.quote 10 1000) (Fin 100)) Demo.market100
              (Demo.quote 10 1000) Demo.swapped (Demo.world [Demo.market100])
              (Check.mk true None)
              eq_refl eq_refl eq_refl eq_refl eq_refl eq_refl eq_refl eq_refl
              eq_refl)
    as (trade & Hrun & Hid & _ & _ & _ & _ & Hprice & _).
  exists trade. split; [exact Hrun|]. split; [exact Hid | exact Hprice].
Defined.

(** X2.  When the risk manager validates the order and the venue has no
    quote, [executeMarketOrder] asks for nothing more: with the store
    taking the update, the order is FAILED with the reason "Unable to get
    quote", no swap is submitted, no trade is recorded, the portfolio is
    as before and no trade is returned. *)
Theorem executeMarketOrder_without_quote
    (env : Env) (order : Order.t) (w : World) (rc : Check.t) :
  validateOrder env (now w) order = Ok rc -> Check.isValid rc = true ->
  getQuote env (1 + now w) (Order.inputMint order) (Order.outputMint order)
    (Order.amount order) = Ok None ->
  poolRejects env (2 + now w)
    (verdict FAILED (Some "Unable to get quote"%string) order) = None ->
  executeMarketOrder env order w = (Ok None, afterNoQuote order w).
Proof.
  intros Hrisk Hvalid Hquote Hpool.
  unfold verdict, afterNoQuote, callsToQuote in *. cbn [Nat.add] in *.
  run. rewrite Hrisk, Hvalid. run. rewrite Hquote. run.
  rewrite Hpool. reflexivity.
Qed.

Lemma executeMarketOrder_without_quote_witness :
  executeMarketOrder (Samples.noQuote (Fin 100)) Demo.market100
    (Demo.world [Demo.market100])
  = (Ok None, afterNoQuote Demo.market100 (Demo.world [Demo.market100])).
Proof.
  apply (executeMarketOrder_without_quote (Samples.noQuote (Fin 100))
           Demo.market100 (Demo.world [Demo.market100]) (Check.mk true None));
    reflexivity.
Defined.

(** X3.  When the venue reports that the swap failed, [executeMarketOrder]
    records no trade and leaves the portfolio alone: with the store taking
    the update, the order is FAILED with the error the venue gave and no
    trade is returned. *)
Theorem executeMarketOrder_swap_failure
    (env : Env) (order : Order.t) (quote : Quote.t) (swapResult : SwapResult.t)
    (w : World) (rc : Check.t) :
  validateOrder env (now w) order = Ok rc -> Check.isValid rc = true ->
  getQuote env (1 + now w) (Order.inputMint order) (Order.outputMint order)
    (Order.amount order) = Ok (Some quote) ->
  Check.isValid (checkSlippage order quote) = true ->
  executeSwap env (2 + now w) quote (Order.userWallet order)
    (Order.slippageTolerance order) = Ok swapResult ->
  SwapResult.success swapResult = false ->
  poolRejects env (3 + now w)
    (verdict FAILED (SwapResult.error swapResult) order) = None ->
  executeMarketOrder env order w
  = (Ok None, afterSwapFailure order quote swapResult w).
Proof.
  intros Hrisk Hvalid Hquote Hslip Hswap Hfail Hpool.
  unfold verdict, afterSwapFailure, callsToSwap, callsToQuote in *.
  cbn [Nat.add] in *.
  run. rewrite Hrisk, Hvalid. run. rewrite Hquote, Hslip. run.
  rewrite Hswap, Hfail. run. rewrite Hpool. reflexivity.
Qed.

Lemma executeMarketOrder_swap_failure_witness :
  executeMarketOrder (Samples.swapFails (Demo.quote 10 1000) (Fin 100))
    Demo.market100 (Demo.world [Demo.market100])
  = (Ok None,
     afterSwapFailure Demo.market100 (Demo.quote 10 1000) Samples.notSwapped
       (Demo.world [Demo.market100])).
Proof.
  apply (executeMarketOrder_swap_failure
           (Samples.swapFails (Demo.quote 10 1000) (Fin 100))
           Demo.market100 (Demo.quote 10 1000) Samples.notSwapped
           (Demo.world [Demo.market100]) (Check.mk true None));
    reflexivity.
Defined.

(** ** What [executeMarketOrder] does on every path *)


(** X5.  One call of [executeMarketOrder] records at most one trade, and
    only after the venue has reported a successful swap for the quote; the
    trade is the one built from the order, the quote and the swap; and the
    portfolio is either left alone or given exactly that trade. *)
Theorem executeMarketOrder_one_trade (env : Env) (order : Order.t) (w : World) :
  let w' := snd (executeMarketOrder env order w) in
  (trades w' = trades w /\ portfolio w' = portfolio w)
  \/ exists quote swapResult,
       executeSwap env (2 + now w) quote (Order.userWallet order)
         (Order.slippageTolerance order) = Ok swapResult
       /\ SwapResult.success swapResult = true
       /\ trades w' = trades w ++ [tradeAt env order swapResult quote (3 + now w)]
       /\ (portfolio w' = portfolio w
           \/ portfolio w'
              = tradeAt env order swapResult quote (3 + now w) :: portfolio w).
Proof.
  cbv zeta. run. unfold checkSlippage, tradeAt. cbn [Nat.add].
  split_answers;
    try (left; split; reflexivity);
    right;
    match goal with
    | Hswap : executeSwap _ _ ?q _ _ = Ok ?s |- _ =>
        exists q, s; split; [exact Hswap|]
    end;
    (split; [destruct (SwapResult.success _); [reflexivity | discriminate]|]);
    (split; [reflexivity|]); auto.
Qed.

Ltac new_calls :=
  first [ exists (@nil Call); split; [reflexivity|]
        | eexists [_]; split; [reflexivity|]
        | eexists [_; _]; split; [reflexivity|]
        | eexists [_; _; _]; split; [reflexivity|]
        | eexists [_; _; _; _]; split; [reflexivity|]
        | eexists [_; _; _; _; _]; split; [reflexivity|]
        | eexists [_; _; _; _; _; _]; split; [reflexivity|]
        | eexists [_; _; _; _; _; _; _]; split; [reflexivity|] ].

(** X6.  [executeMarketOrder] never submits a swap for an order the risk
    manager has not validated or for a quote that fails the slippage gate:
    among the calls it makes, a swap is submitted only with the quote the
    venue returned for the order, after the risk manager has answered that
    the order is valid and [checkSlippage] has accepted the quote, and only
    for the order's wallet and tolerance; and one call submits at most one
    swap. *)
Theorem executeMarketOrder_swap_after_gates
    (env : Env) (order : Order.t) (w : World) :
  exists new,
    calls (snd (executeMarketOrder env order w)) = new ++ calls w
    /\ (List.length (filter isSwap new) <= 1)%nat
    /\ forall quote wallet tolerance,
         In (CExecuteSwap quote wallet tolerance) new ->
         (exists rc, validateOrder env (now w) order = Ok rc
                     /\ Check.isValid rc = true)
         /\ getQuote env (1 + now w) (Order.inputMint order)
              (Order.outputMint order) (Order.amount order) = Ok (Some quote)
         /\ Check.isValid (checkSlippage order quote) = true
         /\ wallet = Order.userWallet order
         /\ tolerance = Order.slippageTolerance order.
Proof.
  run. cbn [Nat.add].
  split_answers; new_calls; (split; [simpl; lia|]);
    intros q' wallet tolerance Hin; simpl in Hin;
    repeat match goal with
           | H : _ \/ _ |- _ => destruct H as [H | H]
           | H : False |- _ => destruct H
           end;
    try discriminate;
    match goal with
    | H : CExecuteSwap _ _ _ = CExecuteSwap _ _ _ |- _ =>
        inversion H; subst; clear H
    end;
    repeat match goal with
           | H : negb ?b = false |- _ => apply negb_false_iff in H
           end;
    (split; [eexists; split; [reflexivity | assumption]|]);
    (split; [reflexivity|]); (split; [assumption|]); split; reflexivity.
Qed.

(** The happy path does not need the order to be in the store. *)
Lemma verdict_on_unknown_order (status : OrderStatus) (reason : option string)
    (order : Order.t) (t : nat) (tbl : list Order.t) :
  Forall (fun o => Order.id o <> Order.id order) tbl ->
  run_orders (verdict status reason order) t tbl = tbl.
Proof.
  intro H. apply run_orders_none_selected.
  induction H as [|o l Ho _ IH]; constructor; [|exact IH].
  simpl. apply String.eqb_neq. exact Ho.
Qed.

(** X7.  [executeMarketOrder] does not look the order up: for an order
    whose id is the id of no row of the orders table, it still submits the
    swap and records and returns the trade when every collaborator
    answers, and the orders table is left exactly as it was, so the trade
    belongs to no stored order. *)
Theorem executeMarketOrder_unknown_order
    (env : Env) (order : Order.t) (quote : Quote.t) (swapResult : SwapResult.t)
    (w : World) (rc : Check.t) :
  Forall (fun o => Order.id o <> Order.id order) (orders w) ->
  validateOrder env (now w) order = Ok rc -> Check.isValid rc = true ->
  getQuote env (1 + now w) (Order.inputMint order) (Order.outputMint order)
    (Order.amount order) = Ok (Some quote) ->
  Check.isValid (checkSlippage order quote) = true ->
  executeSwap env (2 + now w) quote (Order.userWallet order)
    (Order.slippageTolerance order) = Ok swapResult ->
  SwapResult.success swapResult = true ->
  poolRejects env (3 + now w)
    (InsertTrade (tradeAt env order swapResult quote (3 + now w))) = None ->
  updatePortfolioAfterTrade env (4 + now w)
    (tradeAt env order swapResult quote (3 + now w)) = Ok tt ->
  poolRejects env (5 + now w) (verdict FILLED None order) = None ->
  let trade := tradeAt env order swapResult quote (3 + now w) in
  let w' := snd (executeMarketOrder env order w) in
  fst (executeMarketOrder env order w) = Ok (Some trade)
  /\ orders w' = orders w
  /\ trades w' = trades w ++ [trade]
  /\ Forall (fun o => Order.id o <> Trade.orderId trade) (orders w').
Proof.
  intros Hunknown Hrisk Hvalid Hquote Hslip Hswap Hok Hinsert Hportfolio Hfilled.
  cbv zeta.
  rewrite (executeMarketOrder_filled_run env order quote swapResult w rc
             Hrisk Hvalid Hquote Hslip Hswap Hok Hinsert Hportfolio Hfilled).
  cbn [fst snd afterFill orders trades].
  rewrite (verdict_on_unknown_order FILLED None order _ _ Hunknown).
  repeat split; try reflexivity. exact Hunknown.
Qed.

(** The store holds the order o1 only; the order o2 is executed. *)
Lemma executeMarketOrder_unknown_order_witness :
  let env := Demo.calm (Demo.quote 10 1000) (Fin 100) in
  let w := Demo.world [Demo.sell50] in
  fst (executeMarketOrder env Demo.market100 w)
  = Ok (Some (tradeAt env Demo.market100 Demo.swapped (Demo.quote 10 1000) 3))
  /\ orders (snd (executeMarketOrder env Demo.market100 w)) = [Demo.sell50]
  /\ Demo.tradedOrders (snd (executeMarketOrder env Demo.market100 w))
     = ["o2"%string].
Proof.
  cbv zeta.
  destruct (executeMarketOrder_unknown_order
              (Demo.calm (Demo.quote 10 1000) (Fin 100)) Demo.market100
              (Demo.quote 10 1000) Demo.swapped (Demo.world [Demo.sell50])
              (Check.mk true None))
    as (Hresult & Horders & Htrades & _); try reflexivity.
  - repeat constructor. intro H; discriminate H.
  - split; [exact Hresult|]. split; [exact Horders|].
    unfold Demo.tradedOrders. rewrite Htrades. reflexivity.
Defined.

(** ** [executeTakeProfitOrder] *)

Lemma executeMarketOrder_not_noop (env : Env) (order : Order.t) (w : World) :
  executeMarketOrder env order w <> (Ok None, w).
Proof.
  intro H.
  pose proof (executeMarketOrder_after_risk_call _ clockAdvances_stepwise
                env order w) as Hclock.
  rewrite H in Hclock. unfold clockAdvances in Hclock. simpl in Hclock. lia.
Qed.

(** X8.  [executeTakeProfitOrder] hands the order to [executeMarketOrder]
    if and only if the side is SELL and the current price has reached the
    take-profit price ([p >= takeProfitPrice], equality included); for a
    BUY order, for an order without take-profit price and for an
    unavailable price it returns no trade and changes nothing.  It has no
    catch block: an exception of the price feed leaves it as it came. *)
Theorem executeTakeProfitOrder_trigger (env : Env) (order : Order.t) (w : World) :
  let answer :=
    getTokenPrice env (now w) (Order.inputMint order) (Order.outputMint order) in
  let w1 := afterPriceCall order w in
  (forall e, answer = Throw e ->
             executeTakeProfitOrder env order w = (Throw e, w1))
  /\ (forall p, answer = Ok p -> truthy p = false ->
                executeTakeProfitOrder env order w = (Ok None, w1))
  /\ (forall p, answer = Ok p -> Order.side order = BUY ->
                executeTakeProfitOrder env order w = (Ok None, w1))
  /\ (forall p, answer = Ok p -> Order.takeProfitPrice order = None ->
                executeTakeProfitOrder env order w = (Ok None, w1))
  /\ (forall p target : Q,
        answer = Ok (Some (Fin p)) -> ~ p == 0 ->
        Order.takeProfitPrice order = Some (Fin target) ->
        (executeTakeProfitOrder env order w = executeMarketOrder env order w1
         <-> takeProfitTrigger (Order.side order) p target)
        /\ (~ takeProfitTrigger (Order.side order) p target ->
            executeTakeProfitOrder env order w = (Ok None, w1))).
Proof.
  cbv zeta.
  assert (Hrun : executeTakeProfitOrder env order w
                 = match getTokenPrice env (now w) (Order.inputMint order)
                           (Order.outputMint order) with
                   | Throw e => (Throw e, afterPriceCall order w)
                   | Ok p =>
                       if negb (truthy p) then (Ok None, afterPriceCall order w)
                       else match Order.side order with
                            | SELL =>
                                if geb (toNumber p)
                                     (toNumber (Order.takeProfitPrice order))
                                then executeMarketOrder env order
                                       (afterPriceCall order w)
                                else (Ok None, afterPriceCall order w)
                            | BUY => (Ok None, afterPriceCall order w)
                            end
                   end).
  { unfold executeTakeProfitOrder, currentPriceOf, afterPriceCall.
    unfold bind at 1, await.
    destruct (getTokenPrice env (now w) _ _) as [p | e]; [|reflexivity].
    destruct (negb (truthy p)); [reflexivity|].
    destruct (Order.side order); [reflexivity|].
    destruct (geb _ _); reflexivity. }
  rewrite Hrun. clear Hrun.
  split; [|split; [|split; [|split]]].
  - intros e He. rewrite He. reflexivity.
  - intros p Hp Hfalsy. rewrite Hp, Hfalsy. reflexivity.
  - intros p Hp Hbuy. rewrite Hp, Hbuy.
    destruct (negb (truthy p)); reflexivity.
  - intros p Hp Hnone. rewrite Hp, Hnone. unfold geb. simpl.
    destruct (negb (truthy p)); [reflexivity|].
    destruct (Order.side order); [reflexivity|].
    destruct (toNumber p); reflexivity.
  - intros p target Hp Hp0 Htarget. rewrite Hp, Htarget.
    unfold geb, takeProfitTrigger. simpl.
    rewrite (Qzerob_false p Hp0). simpl.
    destruct (Order.side order).
    + split; [split|].
      * intro H. symmetry in H. exfalso.
        exact (executeMarketOrder_not_noop _ _ _ H).
      * intros [H _]. discriminate H.
      * reflexivity.
    + destruct (Qle_bool target p) eqn:E.
      * apply Qle_bool_iff in E. split; [tauto|].
        intro Hno. exfalso. apply Hno. tauto.
      * split; [split|].
        -- intro H. symmetry in H. exfalso.
           exact (executeMarketOrder_not_noop _ _ _ H).
        -- intros [_ H]. apply Qle_bool_iff in H. congruence.
        -- reflexivity.
Qed.

(** A take-profit order to sell at 60: executed at 60, waiting at 59; and
    a price feed that times out. *)
Lemma executeTakeProfitOrder_trigger_witness :
  let env p := Demo.calm (Demo.quote 10 600) (Fin p) in
  let w := Demo.world [Samples.takeProfit60] in
  executeTakeProfitOrder (env 60) Samples.takeProfit60 w
  = executeMarketOrder (env 60) Samples.takeProfit60
      (afterPriceCall Samples.takeProfit60 w)
  /\ executeTakeProfitOrder (env 59) Samples.takeProfit60 w
     = (Ok None, afterPriceCall Samples.takeProfit60 w)
  /\ executeTakeProfitOrder (Demo.priceDownAt 0 (Demo.quote 10 600) (Fin 60))
       Samples.takeProfit60 w
     = (Throw "price feed timeout"%string, afterPriceCall Samples.takeProfit60 w).
Proof.
  cbv zeta.
  pose (trig := fun env =>
          executeTakeProfitOrder_trigger env Samples.takeProfit60
            (Demo.world [Samples.takeProfit60])).
  split; [|split].
  - destruct (trig (Demo.calm (Demo.quote 10 600) (Fin 60)))
      as (_ & _ & _ & _ & H).
    destruct (H 60 60 eq_refl) as [Hiff _];
      [intro E; discriminate E | reflexivity |].
    apply Hiff. split; [reflexivity | intro E; discriminate E].
  - destruct (trig (Demo.calm (Demo.quote 10 600) (Fin 59)))
      as (_ & _ & _ & _ & H).
    destruct (H 59 60 eq_refl) as [_ Hno];
      [intro E; discriminate E | reflexivity |].
    apply Hno. intros [_ E]. apply E. reflexivity.
  - destruct (trig (Demo.priceDownAt 0 (Demo.quote 10 600) (Fin 60)))
      as (Hthrow & _).
    apply Hthrow. reflexivity.
Defined.

(** ** Invariants of the two tables *)

Lemma dataKept_refl (o : Order.t) : dataKept o o.
Proof. destruct o; reflexivity. Qed.

Lemma dataKept_trans (o1 o2 o3 : Order.t) :
  dataKept o1 o2 -> dataKept o2 o3 -> dataKept o1 o3.
Proof.
  unfold dataKept. intros H12 H23. rewrite H23 at 1. rewrite H12.
  reflexivity.
Qed.

Lemma rowsKept_stepwise : Stepwise rowsKept.
Proof.
  constructor; unfold rowsKept; simpl.
  - intro w. induction (orders w); constructor; auto using dataKept_refl.
  - intros w1 w2 w3. generalize (orders w1) (orders w2) (orders w3).
    intros l1 l2 l3 H12. revert l3.
    induction H12 as [|a b l1 l2 Hab _ IH]; intros l3 H23;
      inversion H23; subst; constructor; eauto using dataKept_trans.
  - intros _ w. induction (orders w); constructor; auto using dataKept_refl.
  - intros s t w _. unfold run_orders.
    induction (orders w) as [|o l IH]; simpl; constructor; [|exact IH].
    destruct (selects s o); [|apply dataKept_refl].
    destruct s; simpl; try apply dataKept_refl; destruct o; reflexivity.
  - intros _ w. induction (orders w); constructor; auto using dataKept_refl.
Qed.

Lemma perform_preserves (R : World -> World -> Prop) (env : Env)
    (op : Operation) (w : World) :
  Stepwise R -> R w (perform env op w).
Proof.
  intro H. destruct op; simpl.
  - apply (preserves_executeMarketOrder _ H).
  - apply (preserves_executeLimitOrder _ H).
  - apply (preserves_executeStopLossOrder _ H).
  - apply (preserves_executeTakeProfitOrder _ H).
  - apply (preserves_cancelOrder _ H).
  - apply (preserves_processPendingOrders _ H).
Qed.

Lemma performAll_preserves (R : World -> World -> Prop) (env : Env)
    (ops : list Operation) (w : World) :
  Stepwise R -> R w (performAll env ops w).
Proof.
  intro H. revert w. induction ops as [|op rest IH]; intro w; simpl.
  - apply (step_refl R H).
  - apply (step_trans R H _ (perform env op w)).
    + apply perform_preserves. exact H.
    + apply IH.
Qed.

(** X9.  Along every sequence of operations of the service
    ([executeMarketOrder], [executeLimitOrder], [executeStopLossOrder],
    [executeTakeProfitOrder], [cancelOrder], [processPendingOrders]), with
    any answers of the collaborators, no row of the orders table is added
    or removed, and a row only ever changes in its status, its failure
    reason and its update time: id, user, wallet, type, side, assets,
    amount, prices, tolerance and creation time stay as they were
    stored. *)
Theorem order_rows_keep_their_data (env : Env) (ops : list Operation)
    (w : World) :
  rowsKept w (performAll env ops w)
  /\ map Order.id (orders (performAll env ops w)) = map Order.id (orders w).
Proof.
  pose proof (performAll_preserves rowsKept env ops w rowsKept_stepwise) as H.
  split; [exact H|].
  unfold rowsKept in H. induction H as [|o o' l l' Ho _ IH]; simpl;
    [reflexivity|].
  rewrite IH. unfold dataKept in Ho. rewrite Ho. reflexivity.
Qed.

Lemma tradesExtended_stepwise : Stepwise tradesExtended.
Proof.
  constructor; unfold tradesExtended; simpl.
  - intro w. exists []. now rewrite app_nil_r.
  - intros w1 w2 w3 [m1 H1] [m2 H2]. exists (m1 ++ m2).
    now rewrite H2, H1, app_assoc.
  - intros _ w. exists []. now rewrite app_nil_r.
  - intros s t w _. destruct s; simpl;
      try (exists []; now rewrite app_nil_r).
    eexists. reflexivity.
  - intros _ w. exists []. now rewrite app_nil_r.
Qed.

(** X10.  The trades table is append-only: along every sequence of
    operations of the service, with any answers of the collaborators, the
    trades recorded before are all still there, unchanged and in the same
    order, followed by the trades the operations recorded. *)
Theorem trades_append_only (env : Env) (ops : list Operation) (w : World) :
  exists more, trades (performAll env ops w) = trades w ++ more.
Proof.
  exact (performAll_preserves tradesExtended env ops w tradesExtended_stepwise).
Qed.

(** X11.  Along every sequence of operations of the service, with any
    answers of the collaborators, an order that has reached a terminal
    status (FILLED, CANCELLED, REJECTED, FAILED, EXPIRED) never has a
    non-terminal status again. *)
Theorem terminal_status_is_final (env : Env) (ops : list Operation) (w : World) :
  Forall2 (fun o o' =>
             Order.id o = Order.id o'
             /\ (terminal (Order.status o) = true ->
                 terminal (Order.status o') = true))
          (orders w) (orders (performAll env ops w)).
Proof.
  exact (performAll_preserves terminalKept env ops w terminalKept_stepwise).
Qed.

(** ** Frames: which orders an operation can write *)

Section PreservationOn.

Variable P : Statement -> Prop.
Variable R : World -> World -> Prop.
Hypothesis HR : StepwiseOn P R.

Lemma on_ret {A} (a : A) : preserves R (ret a).
Proof. intro w. apply (on_refl P R HR). Qed.

Lemma on_bind {A B} (m : M A) (k : A -> M B) :
  preserves R m -> (forall a, preserves R (k a)) -> preserves R (bind m k).
Proof.
  intros Hm Hk w. unfold bind. specialize (Hm w).
  destruct (m w) as [[a | e] w1]; simpl in *.
  - apply (on_trans P R HR _ w1); [exact Hm | apply Hk].
  - exact Hm.
Qed.

Lemma on_try_catch {A} (m : M A) (h : string -> M A) :
  preserves R m -> (forall e, preserves R (h e)) -> preserves R (try_catch m h).
Proof.
  intros Hm Hh w. unfold try_catch. specialize (Hm w).
  destruct (m w) as [[a | e] w1]; simpl in *.
  - exact Hm.
  - apply (on_trans P R HR _ w1); [exact Hm | apply Hh].
Qed.

Lemma on_await {A} (c : Call) (answer : nat -> Res A) :
  preserves R (await c answer).
Proof. intro w. apply (on_tick P R HR). Qed.

Lemma on_query (env : Env) (s : Statement) :
  P s -> preserves R (query env s).
Proof.
  intros Hs w. unfold query.
  destruct (poolRejects env (now w) s); simpl.
  - apply (on_tick P R HR).
  - apply (on_trans P R HR _ (tick (CQuery s) w)).
    + apply (on_tick P R HR).
    + apply (on_commit P R HR). exact Hs.
Qed.

Lemma on_applyToPortfolio (env : Env) (t : Trade.t) :
  preserves R (applyToPortfolio env t).
Proof.
  intro w. unfold applyToPortfolio.
  destruct (updatePortfolioAfterTrade env (now w) t); simpl.
  - apply (on_trans P R HR _ (tick (CUpdatePortfolio t) w)).
    + apply (on_tick P R HR).
    + apply (on_applied P R HR).
  - apply (on_tick P R HR).
Qed.

Lemma on_updateOrderStatus (env : Env) (orderId : string)
    (status : OrderStatus) (reason : option string) :
  P (UpdateStatus status reason orderId) ->
  preserves R (updateOrderStatus env orderId status reason).
Proof.
  intro Hs. unfold updateOrderStatus.
  apply on_bind; [apply on_query; exact Hs|].
  intro. apply on_ret.
Qed.

Lemma on_createTrade (env : Env) (order : Order.t)
    (swapResult : SwapResult.t) (quote : Quote.t) :
  (forall t, P (InsertTrade t)) ->
  preserves R (createTrade env order swapResult quote).
Proof.
  intros Hs w. unfold createTrade.
  apply on_bind; [apply on_query; apply Hs|].
  intro. apply on_ret.
Qed.

Ltac on_step Hallow :=
  first
    [ apply on_ret
    | apply on_await
    | apply on_createTrade; apply Hallow
    | apply on_applyToPortfolio
    | apply on_updateOrderStatus; apply Hallow
    | match goal with
      | |- preserves _ (bind _ _) => apply on_bind; [|intro]
      | |- preserves _ (try_catch _ _) => apply on_try_catch; [|intro]
      | |- preserves _ (if ?b then _ else _) => destruct b
      | |- preserves _ (match ?x with _ => _ end) => destruct x
      | |- preserves _ (let _ := _ in _) => cbv zeta
      end ].

Lemma on_executeMarketOrder (env : Env) (order : Order.t) :
  allows P order -> preserves R (executeMarketOrder env order).
Proof. intro Hallow. unfold executeMarketOrder. repeat on_step Hallow. Qed.

Lemma on_executeLimitOrder (env : Env) (order : Order.t) :
  allows P order -> preserves R (executeLimitOrder env order).
Proof.
  intro Hallow. unfold executeLimitOrder, currentPriceOf.
  repeat first [apply on_executeMarketOrder; exact Hallow | on_step Hallow].
Qed.

Lemma on_executeStopLossOrder (env : Env) (order : Order.t) :
  allows P order -> preserves R (executeStopLossOrder env order).
Proof.
  intro Hallow. unfold executeStopLossOrder, currentPriceOf.
  repeat first [apply on_executeMarketOrder; exact Hallow | on_step Hallow].
Qed.

Lemma on_executeTakeProfitOrder (env : Env) (order : Order.t) :
  allows P order -> preserves R (executeTakeProfitOrder env order).
Proof.
  intro Hallow. unfold executeTakeProfitOrder, currentPriceOf.
  repeat first [apply on_executeMarketOrder; exact Hallow | on_step Hallow].
Qed.

Lemma on_dispatch (env : Env) (order : Order.t) :
  allows P order -> preserves R (dispatch env order).
Proof.
  intro Hallow. unfold dispatch.
  destruct (Order.type order);
    repeat first [ apply on_executeLimitOrder; exact Hallow
                 | apply on_executeStopLossOrder; exact Hallow
                 | apply on_executeTakeProfitOrder; exact Hallow
                 | on_step Hallow ].
Qed.

Lemma on_forEachOrder (env : Env) (pendingOrders : list Order.t) :
  Forall (allows P) pendingOrders ->
  preserves R (forEachOrder env pendingOrders).
Proof.
  intro Hall. induction Hall as [|order rest Hallow _ IH]; simpl.
  - apply on_ret.
  - apply on_bind; [apply on_dispatch; exact Hallow | intro; exact IH].
Qed.

End PreservationOn.

Lemma untouchedOutside_stepwise (ids : list string) :
  StepwiseOn (writesWithin ids) (untouchedOutside ids).
Proof.
  constructor; unfold untouchedOutside; simpl.
  - intro w. induction (orders w); constructor; auto.
  - intros w1 w2 w3. generalize (orders w1) (orders w2) (orders w3).
    intros l1 l2 l3 H12. revert l3.
    induction H12 as [|a b l1 l2 [Hid Hab] _ IH]; intros l3 H23;
      inversion H23 as [|b' c l2' l3' [Hid' Hbc] Hrest]; subst; constructor.
    + split; [congruence|]. intro Hout.
      rewrite Hbc, Hab; [reflexivity | exact Hout |].
      rewrite Hid. exact Hout.
    + apply IH. exact Hrest.
  - intros _ w. induction (orders w); constructor; auto.
  - intros s t w Hs. unfold run_orders.
    induction (orders w) as [|o l IH]; simpl; constructor; [|exact IH].
    destruct (selects s o) eqn:Hsel; [|auto].
    destruct s as [status reason orderId | status orderId userId expected
                  | trade | status];
      simpl in *; try discriminate; auto.
    + apply String.eqb_eq in Hsel. subst orderId.
      split; [reflexivity|]. intro Hout. contradiction.
    + apply andb_true_iff in Hsel. destruct Hsel as [Hsel _].
      apply andb_true_iff in Hsel. destruct Hsel as [Hsel _].
      apply String.eqb_eq in Hsel. subst orderId.
      split; [reflexivity|]. intro Hout. contradiction.
  - intros _ w. induction (orders w); constructor; auto.
Qed.

Lemma allows_within (ids : list string) (order : Order.t) :
  In (Order.id order) ids -> allows (writesWithin ids) order.
Proof. intro Hin. split; intros; simpl; auto. Qed.

Lemma untouchedOutside_one (order : Order.t) (w w' : World) :
  untouchedOutside [Order.id order] w w' ->
  Forall2 (fun o o' => Order.id o <> Order.id order -> o' = o)
          (orders w) (orders w').
Proof.
  unfold untouchedOutside. generalize (orders w) (orders w').
  intros l l' H. induction H as [|o o' l l' [_ Hout] _ IH]; constructor;
    [|exact IH].
  intro Hid. apply Hout. simpl. intros [E | []]. congruence.
Qed.

(** X12.  Each executor writes the rows of its own order only: whatever
    the collaborators answer, after [executeMarketOrder],
    [executeLimitOrder], [executeStopLossOrder] or
    [executeTakeProfitOrder] on an order, every row of the orders table
    with another id is exactly as before. *)
Theorem executors_write_their_order_only (env : Env) (order : Order.t)
    (w : World) :
  let others_kept w' :=
    Forall2 (fun o o' => Order.id o <> Order.id order -> o' = o)
            (orders w) (orders w') in
  others_kept (snd (executeMarketOrder env order w))
  /\ others_kept (snd (executeLimitOrder env order w))
  /\ others_kept (snd (executeStopLossOrder env order w))
  /\ others_kept (snd (executeTakeProfitOrder env order w)).
Proof.
  cbv zeta.
  pose proof (untouchedOutside_stepwise [Order.id order]) as H.
  assert (Hallow : allows (writesWithin [Order.id order]) order)
    by (apply allows_within; left; reflexivity).
  repeat split; apply untouchedOutside_one.
  - apply (on_executeMarketOrder _ _ H env order Hallow).
  - apply (on_executeLimitOrder _ _ H env order Hallow).
  - apply (on_executeStopLossOrder _ _ H env order Hallow).
  - apply (on_executeTakeProfitOrder _ _ H env order Hallow).
Qed.

(** ** The queue of [processPendingOrders] *)

Lemma insert_by_createdAt_perm (o : Order.t) (l : list Order.t) :
  Permutation (insert_by_createdAt o l) (o :: l).
Proof.
  induction l as [|x l IH]; simpl; [apply Permutation_refl|].
  destruct (Nat.leb (Order.createdAt o) (Order.createdAt x)).
  - apply Permutation_refl.
  - apply (Permutation_trans (perm_skip x IH)). apply perm_swap.
Qed.

Lemma order_by_createdAt_perm (l : list Order.t) :
  Permutation (order_by_createdAt l) l.
Proof.
  induction l as [|o l IH]; simpl; [apply Permutation_refl|].
  apply (Permutation_trans (insert_by_createdAt_perm o _)).
  apply perm_skip. exact IH.
Qed.

Lemma insert_by_createdAt_sorted (o : Order.t) (l : list Order.t) :
  StronglySorted olderFirst l ->
  StronglySorted olderFirst (insert_by_createdAt o l).
Proof.
  intro Hs. induction Hs as [|x l Hs IH Hx]; simpl.
  - constructor; constructor.
  - destruct (Nat.leb (Order.createdAt o) (Order.createdAt x)) eqn:E.
    + apply Nat.leb_le in E. constructor; [constructor; assumption|].
      constructor; [exact E|].
      apply (Forall_impl _ (P := olderFirst x)); [|exact Hx].
      intros y Hy. unfold olderFirst in *. lia.
    + apply Nat.leb_gt in E. constructor; [exact IH|].
      apply (Permutation_Forall (Permutation_sym (insert_by_createdAt_perm o l))).
      constructor; [unfold olderFirst; lia | exact Hx].
Qed.

Lemma order_by_createdAt_sorted (l : list Order.t) :
  StronglySorted olderFirst (order_by_createdAt l).
Proof.
  induction l as [|o l IH]; simpl; [constructor|].
  apply insert_by_createdAt_sorted. exact IH.
Qed.

(** X13.  When the store answers, [getPendingOrders] returns the PENDING
    rows of the orders table, each once and no other row, the oldest
    first; and reading them writes nothing. *)
Theorem getPendingOrders_oldest_first (env : Env) (w : World)
    (pendingOrders : list Order.t) :
  fst (getPendingOrders env w) = Ok pendingOrders ->
  Permutation pendingOrders (filter isPending (orders w))
  /\ (forall o, In o pendingOrders <->
                In o (orders w) /\ Order.status o = PENDING)
  /\ StronglySorted olderFirst pendingOrders
  /\ orders (snd (getPendingOrders env w)) = orders w
  /\ trades (snd (getPendingOrders env w)) = trades w.
Proof.
  run. destruct (poolRejects env (now w) (SelectPending PENDING));
    run; intro H; [discriminate H|].
  inversion H; subst; clear H. cbn [result_of rows].
  assert (Hperm : Permutation
                    (order_by_createdAt
                       (filter (selects (SelectPending PENDING)) (orders w)))
                    (filter isPending (orders w)))
    by apply order_by_createdAt_perm.
  split; [exact Hperm|]. split; [|split; [|split]].
  - intro o. split.
    + intro Hin. apply (Permutation_in _ Hperm) in Hin.
      apply filter_In in Hin. destruct Hin as [Hin Hp].
      split; [exact Hin|]. now apply OrderStatus_eqb_eq.
    + intros [Hin Hp].
      apply (Permutation_in _ (Permutation_sym Hperm)).
      apply filter_In. split; [exact Hin|]. now apply OrderStatus_eqb_eq.
  - apply order_by_createdAt_sorted.
  - apply run_orders_select.
  - reflexivity.
Qed.

(** Three pending orders created at times 1, 0 and 5, and a settled one. *)
Lemma getPendingOrders_oldest_first_witness :
  let env := Demo.calm (Demo.quote 10 500) (Fin 45) in
  let w := Demo.world [Demo.sell50; Samples.filledBefore; Demo.stopLoss;
                       Samples.takeProfit60] in
  fst (getPendingOrders env w)
  = Ok [Demo.stopLoss; Demo.sell50; Samples.takeProfit60]
  /\ StronglySorted olderFirst [Demo.stopLoss; Demo.sell50; Samples.takeProfit60].
Proof.
  cbv zeta. split; [reflexivity|].
  apply (getPendingOrders_oldest_first
           (Demo.calm (Demo.quote 10 500) (Fin 45))
           (Demo.world [Demo.sell50; Samples.filledBefore; Demo.stopLoss;
                        Samples.takeProfit60])).
  reflexivity.
Defined.

(** ** The scheduler pass *)

(** A pass is the read of the queue followed by the loop; whatever ends
    the loop, the pass returns normally. *)
Lemma processPendingOrders_run (env : Env) (w : World) :
  processPendingOrders env w
  = match poolRejects env (now w) (SelectPending PENDING) with
    | Some _ => (Ok tt, tick (CQuery (SelectPending PENDING)) w)
    | None =>
        (Ok tt,
         snd (forEachOrder env
                (order_by_createdAt (filter isPending (orders w)))
                (commit (SelectPending PENDING) (now w)
                   (tick (CQuery (SelectPending PENDING)) w))))
    end.
Proof.
  run. destruct (poolRejects env (now w) (SelectPending PENDING)); run;
    [reflexivity|].
  cbn [result_of rows].
  change (filter (selects (SelectPending PENDING)) (orders w))
    with (filter isPending (orders w)).
  destruct (forEachOrder env _ _) as [[[] | e] w']; reflexivity.
Qed.

(** X14.  [processPendingOrders] never throws, whatever the collaborators
    do; and when the store rejects the read of the queue, the pass ends
    there: no collaborator is called and nothing is written. *)
Theorem processPendingOrders_contains_failures (env : Env) (w : World) :
  fst (processPendingOrders env w) = Ok tt
  /\ forall e, poolRejects env (now w) (SelectPending PENDING) = Some e ->
               snd (processPendingOrders env w)
               = tick (CQuery (SelectPending PENDING)) w.
Proof.
  rewrite processPendingOrders_run.
  destruct (poolRejects env (now w) (SelectPending PENDING)); split;
    try reflexivity; intros e H; discriminate H.
Qed.

Lemma processPendingOrders_contains_failures_witness :
  let env := Samples.storeDown (Demo.quote 10 500) (Fin 51) in
  let w := Demo.world [Demo.sell50] in
  processPendingOrders env w
  = (Ok tt, tick (CQuery (SelectPending PENDING)) w).
Proof.
  cbv zeta.
  destruct (processPendingOrders_contains_failures
              (Samples.storeDown (Demo.quote 10 500) (Fin 51))
              (Demo.world [Demo.sell50])) as [Hok Hdown].
  specialize (Hdown "connection refused"%string eq_refl).
  rewrite <- Hok, <- Hdown. reflexivity.
Defined.

Lemma forEachOrder_without_executor (env : Env) (l : list Order.t) (w : World) :
  Forall (fun o => Order.type o = MARKET \/ Order.type o = TRAILING_STOP) l ->
  forEachOrder env l w = (Ok tt, w).
Proof.
  intro H. induction H as [|o l Ho _ IH]; simpl; [reflexivity|].
  unfold bind, dispatch. destruct Ho as [-> | ->]; simpl; exact IH.
Qed.

(** X15.  The pass has no executor for MARKET and TRAILING_STOP orders:
    when every PENDING order is of one of these two types, the pass reads
    the queue and does nothing else, so the orders stay PENDING, however
    often the pass runs. *)
Theorem processPendingOrders_skips_market_orders (env : Env) (w : World) :
  Forall (fun o => Order.status o = PENDING ->
                   Order.type o = MARKET \/ Order.type o = TRAILING_STOP)
         (orders w) ->
  let w' := snd (processPendingOrders env w) in
  orders w' = orders w
  /\ trades w' = trades w
  /\ portfolio w' = portfolio w
  /\ calls w' = CQuery (SelectPending PENDING) :: calls w.
Proof.
  intro Hall. cbv zeta. rewrite processPendingOrders_run.
  destruct (poolRejects env (now w) (SelectPending PENDING)).
  - repeat split; reflexivity.
  - rewrite forEachOrder_without_executor.
    + cbn [snd commit tick orders trades portfolio calls run_trades].
      rewrite run_orders_select. repeat split; reflexivity.
    + apply Forall_forall. intros o Hin.
      apply (Permutation_in _ (order_by_createdAt_perm _)) in Hin.
      apply filter_In in Hin. destruct Hin as [Hin Hp].
      rewrite Forall_forall in Hall. apply (Hall o Hin).
      now apply OrderStatus_eqb_eq.
Qed.

(** A market order left PENDING beside a filled order. *)
Lemma processPendingOrders_skips_market_orders_witness :
  let env := Demo.calm (Demo.quote 10 500) (Fin 51) in
  let w := Demo.world [Samples.strandedMarket; Samples.filledBefore] in
  orders (snd (processPendingOrders env w))
  = [Samples.strandedMarket; Samples.filledBefore]
  /\ calls (snd (processPendingOrders env w)) = [CQuery (SelectPending PENDING)].
Proof.
  cbv zeta.
  destruct (processPendingOrders_skips_market_orders
              (Demo.calm (Demo.quote 10 500) (Fin 51))
              (Demo.world [Samples.strandedMarket; Samples.filledBefore]))
    as (Horders & _ & _ & Hcalls).
  - constructor; [intros _; left; reflexivity|].
    constructor; [intro H; discriminate H | constructor].
  - split; [exact Horders | exact Hcalls].
Defined.

Lemma NoDup_map_injective {A B} (f : A -> B) (l : list A) (a b : A) :
  NoDup (map f l) -> In a l -> In b l -> f a = f b -> a = b.
Proof.
  induction l as [|x l IH]; simpl; intros Hnd Ha Hb Hf; [contradiction|].
  inversion Hnd as [|y m Hnotin Hnd']; subst.
  destruct Ha as [-> | Ha], Hb as [-> | Hb].
  - reflexivity.
  - exfalso. apply Hnotin. rewrite Hf. now apply in_map.
  - exfalso. apply Hnotin. rewrite <- Hf. now apply in_map.
  - exact (IH Hnd' Ha Hb Hf).
Qed.

Lemma Forall2_impl_In {A B} (R R' : A -> B -> Prop) (l : list A) (l' : list B) :
  Forall2 R l l' ->
  (forall a b, In a l -> R a b -> R' a b) ->
  Forall2 R' l l'.
Proof.
  intro H. induction H as [|a b l l' Hab _ IH]; intro Himp; constructor.
  - apply Himp; [left; reflexivity | exact Hab].
  - apply IH. intros x y Hin. apply Himp. right. exact Hin.
Qed.

Lemma Forall2_In_l {A B} (R : A -> B -> Prop) (l : list A) (l' : list B) (a : A) :
  Forall2 R l l' -> In a l -> exists b, In b l' /\ R a b.
Proof.
  intro H. induction H as [|x y l l' Hxy _ IH]; simpl; [contradiction|].
  intros [-> | Hin]; [eauto|].
  destruct (IH Hin) as [b [Hb Hab]]. eauto.
Qed.

Lemma Forall2_In_r {A B} (R : A -> B -> Prop) (l : list A) (l' : list B) (b : B) :
  Forall2 R l l' -> In b l' -> exists a, In a l /\ R a b.
Proof.
  intro H. induction H as [|x y l l' Hxy _ IH]; simpl; [contradiction|].
  intros [-> | Hin]; [eauto|].
  destruct (IH Hin) as [a [Ha Hab]]. eauto.
Qed.

(** With one row per id, a pass writes the rows that were PENDING when it
    read the queue, and no other. *)
Lemma pass_writes_pending_rows_only (env : Env) (w : World) :
  NoDup (map Order.id (orders w)) ->
  Forall2 (fun o o' =>
             Order.id o' = Order.id o
             /\ (Order.status o <> PENDING -> o' = o))
          (orders w) (orders (snd (processPendingOrders env w))).
Proof.
  intro Hnd. rewrite processPendingOrders_run.
  destruct (poolRejects env (now w) (SelectPending PENDING)).
  - clear Hnd. simpl. induction (orders w); constructor; auto.
  - set (queue := order_by_createdAt (filter isPending (orders w))).
    set (w1 := commit (SelectPending PENDING) (now w)
                 (tick (CQuery (SelectPending PENDING)) w)).
    assert (Hframe : untouchedOutside (map Order.id queue) w1
                       (snd (forEachOrder env queue w1))).
    { apply (on_forEachOrder _ _ (untouchedOutside_stepwise (map Order.id queue))).
      apply Forall_forall. intros o Hin.
      apply allows_within. now apply in_map. }
    unfold untouchedOutside in Hframe.
    replace (orders w1) with (orders w) in Hframe
      by (symmetry; apply run_orders_select).
    cbn [snd].
    apply (Forall2_impl_In _ _ _ _ Hframe).
    intros o o' Hin [Hid Hout]. split; [exact Hid|].
    intro Hsettled. apply Hout. intro Hqueued.
    apply in_map_iff in Hqueued. destruct Hqueued as [p [Hpid Hp]].
    apply (Permutation_in _ (order_by_createdAt_perm _)) in Hp.
    apply filter_In in Hp. destruct Hp as [Hp Hpending].
    assert (p = o) by exact (NoDup_map_injective _ _ _ _ Hnd Hp Hin Hpid).
    subst p. apply Hsettled. now apply OrderStatus_eqb_eq.
Qed.

(** X16.  With one row per order id, a scheduler pass leaves alone every
    order that is not PENDING when the pass starts: whatever the
    collaborators answer, the rows of FILLED, CANCELLED, REJECTED, FAILED
    and EXPIRED orders are exactly as before, field by field. *)
Theorem processPendingOrders_leaves_settled_orders (env : Env) (w : World) :
  NoDup (map Order.id (orders w)) ->
  Forall2 (fun o o' => Order.status o <> PENDING -> o' = o)
          (orders w) (orders (snd (processPendingOrders env w)))
  /\ forall o, In o (orders w) -> Order.status o <> PENDING ->
               In o (orders (snd (processPendingOrders env w))).
Proof.
  intro Hnd. pose proof (pass_writes_pending_rows_only env w Hnd) as H.
  split.
  - apply (Forall2_impl_In _ _ _ _ H). intros o o' _ [_ Hout]. exact Hout.
  - intros o Hin Hsettled.
    destruct (Forall2_In_l _ _ _ o H Hin) as [o' [Hin' [_ Hout]]].
    rewrite <- (Hout Hsettled). exact Hin'.
Qed.

(** A pass that fills the limit order o1 beside a filled order and a
    market order. *)
Lemma processPendingOrders_leaves_settled_orders_witness :
  let env := Demo.calm (Demo.quote 10 500) (Fin 51) in
  let w := Demo.world [Samples.filledBefore; Demo.sell50] in
  In Samples.filledBefore (orders (snd (processPendingOrders env w)))
  /\ Demo.verdicts (snd (processPendingOrders env w))
     = [("o10"%string, FILLED, None); ("o1"%string, FILLED, None)].
Proof.
  cbv zeta. split; [|reflexivity].
  destruct (processPendingOrders_leaves_settled_orders
              (Demo.calm (Demo.quote 10 500) (Fin 51))
              (Demo.world [Samples.filledBefore; Demo.sell50])) as [_ Hin].
  - repeat constructor; simpl; intuition discriminate.
  - apply Hin; [left; reflexivity | intro H; discriminate H].
Defined.

(** ** [cancelOrder], alone and before a pass *)

(** What a cancellation that returned [true] has done. *)
Lemma cancelOrder_true_run (env : Env) (orderId userId : string) (w : World) :
  fst (cancelOrder env orderId userId w) = Ok true ->
  orders (snd (cancelOrder env orderId userId w))
  = map (fun o => if cancellable orderId userId o
                  then Order.with_status CANCELLED (now w) o
                  else o)
        (orders w)
  /\ exists o, In o (orders w) /\ cancellable orderId userId o = true.
Proof.
  run. destruct (poolRejects env (now w) _); run; intro H;
    [discriminate H|].
  split; [reflexivity|].
  assert (Hcount : Nat.ltb 0 (rowCount (result_of
                     (UpdateCancel CANCELLED orderId userId PENDING)
                     (orders w))) = true) by congruence.
  unfold result_of in Hcount. cbn [rowCount] in Hcount.
  rewrite some_row_selected in Hcount.
  apply existsb_exists in Hcount. exact Hcount.
Qed.

Lemma cancel_keeps_ids (orderId userId : string) (t : nat) (l : list Order.t) :
  map Order.id
      (map (fun o => if cancellable orderId userId o
                     then Order.with_status CANCELLED t o
                     else o) l)
  = map Order.id l.
Proof.
  rewrite map_map. apply map_ext. intro o.
  destruct (cancellable orderId userId o); reflexivity.
Qed.

(** X17.  With one row per order id, an order whose cancellation returned
    [true] is out of the scheduler's reach: after any later pass, with any
    answers of the collaborators, the order has a row and every row of the
    order is CANCELLED. *)
Theorem cancelled_order_survives_pass
    (env env' : Env) (orderId userId : string) (w : World) :
  NoDup (map Order.id (orders w)) ->
  fst (cancelOrder env orderId userId w) = Ok true ->
  let w1 := snd (cancelOrder env orderId userId w) in
  let w2 := snd (processPendingOrders env' w1) in
  (exists o, In o (orders w2) /\ Order.id o = orderId)
  /\ forall o, In o (orders w2) -> Order.id o = orderId ->
               Order.status o = CANCELLED.
Proof.
  intros Hnd Htrue. cbv zeta.
  destruct (cancelOrder_true_run env orderId userId w Htrue)
    as [Hrows [oc [Hoc Hcancellable]]].
  set (w1 := snd (cancelOrder env orderId userId w)) in *.
  assert (Hnd1 : NoDup (map Order.id (orders w1)))
    by (rewrite Hrows, cancel_keeps_ids; exact Hnd).
  assert (Hcancelled : forall o1, In o1 (orders w1) -> Order.id o1 = orderId ->
                                  Order.status o1 = CANCELLED).
  { intros o1 Hin Hid. rewrite Hrows in Hin.
    apply in_map_iff in Hin. destruct Hin as [o [Ho Hin]].
    assert (Hoid : Order.id o = orderId).
    { rewrite <- Hid, <- Ho.
      destruct (cancellable orderId userId o); reflexivity. }
    assert (o = oc).
    { apply (NoDup_map_injective Order.id (orders w)); auto.
      apply cancellable_iff in Hcancellable. rewrite Hoid. symmetry. tauto. }
    subst o. rewrite Hcancellable in Ho. rewrite <- Ho. reflexivity. }
  pose proof (pass_writes_pending_rows_only env' w1 Hnd1) as Hpass.
  split.
  - assert (Hin1 : In (Order.with_status CANCELLED (now w) oc) (orders w1)).
    { rewrite Hrows. apply in_map_iff. exists oc.
      rewrite Hcancellable. auto. }
    destruct (Forall2_In_l _ _ _ _ Hpass Hin1) as [o2 [Hin2 [Hid2 _]]].
    exists o2. split; [exact Hin2|]. rewrite Hid2. simpl.
    apply cancellable_iff in Hcancellable. tauto.
  - intros o2 Hin2 Hid.
    destruct (Forall2_In_r _ _ _ _ Hpass Hin2) as [o1 [Hin1 [Hid1 Hout]]].
    assert (Hc : Order.status o1 = CANCELLED)
      by (apply Hcancelled; [exact Hin1 | congruence]).
    rewrite Hout; [exact Hc|]. rewrite Hc. discriminate.
Qed.

(** The limit order o1 is cancelled; the pass that sees its trigger price
    fills nothing. *)
Lemma cancelled_order_survives_pass_witness :
  let env := Demo.calm (Demo.quote 10 500) (Fin 51) in
  let w := Demo.world [Demo.sell50; Demo.market100] in
  let w2 := snd (processPendingOrders env (snd (cancelOrder env "o1" "alice" w))) in
  (exists o, In o (orders w2) /\ Order.id o = "o1"%string)
  /\ forall o, In o (orders w2) -> Order.id o = "o1"%string ->
               Order.status o = CANCELLED.
Proof.
  cbv zeta.
  apply (cancelled_order_survives_pass
           (Demo.calm (Demo.quote 10 500) (Fin 51))
           (Demo.calm (Demo.quote 10 500) (Fin 51))
           "o1" "alice" (Demo.world [Demo.sell50; Demo.market100])).
  - repeat constructor; simpl; intuition discriminate.
  - reflexivity.
Defined.

(** X18.  Cancelling is not repeatable: once the store has executed a
    cancellation, a second [cancelOrder] for the same order and user
    returns [false] and leaves every row as it is, whether or not the
    first one found the order. *)
Theorem cancelOrder_twice (env env' : Env) (orderId userId : string) (w : World) :
  poolRejects env (now w) (UpdateCancel CANCELLED orderId userId PENDING) = None ->
  let w1 := snd (cancelOrder env orderId userId w) in
  fst (cancelOrder env' orderId userId w1) = Ok false
  /\ orders (snd (cancelOrder env' orderId userId w1)) = orders w1.
Proof.
  intro Hpool. cbv zeta.
  assert (Hnone : Forall (fun o => selects (UpdateCancel CANCELLED orderId userId
                                              PENDING) o = false)
                         (orders (snd (cancelOrder env orderId userId w)))).
  { run. rewrite Hpool. run. unfold run_orders.
    apply Forall_forall. intros o Hin.
    apply in_map_iff in Hin. destruct Hin as [o0 [Ho Hin]].
    destruct (selects _ o0) eqn:Hsel; subst o; [|exact Hsel].
    simpl. rewrite andb_false_r. reflexivity. }
  set (w1 := snd (cancelOrder env orderId userId w)) in *.
  run. destruct (poolRejects env' (now w1) _); run;
    [split; reflexivity|].
  split.
  - unfold result_of. cbn [rowCount]. rewrite some_row_selected.
    destruct (existsb _ (orders w1)) eqn:E; [|reflexivity].
    apply existsb_exists in E. destruct E as [o [Hin Hsel]].
    rewrite Forall_forall in Hnone. rewrite (Hnone o Hin) in Hsel.
    discriminate Hsel.
  - apply run_orders_none_selected. exact Hnone.
Qed.

Lemma cancelOrder_twice_witness :
  let env := Demo.calm (Demo.quote 10 500) (Fin 45) in
  let w1 := snd (cancelOrder env "o1" "alice" (Demo.world [Demo.sell50])) in
  fst (cancelOrder env "o1" "alice" w1) = Ok false
  /\ orders (snd (cancelOrder env "o1" "alice" w1)) = orders w1.
Proof.
  cbv zeta.
  apply (cancelOrder_twice (Demo.calm (Demo.quote 10 500) (Fin 45))
           (Demo.calm (Demo.quote 10 500) (Fin 45))
           "o1" "alice" (Demo.world [Demo.sell50])).
  reflexivity.
Defined.

(** ** The slippage gate at its edges *)



(** X20.  A quote whose amounts give no number passes the slippage gate of
    every order: when [outAmount] or [inAmount] is read as [NaN], or both
    are zero, the quoted price and the slippage are [NaN], and
    [checkSlippage] accepts the quote whatever the reference price and the
    tolerance. *)
Theorem checkSlippage_accepts_unreadable_quote
    (order : Order.t) (quote : Quote.t) :
  Quote.outAmount quote = NaN
  \/ Quote.inAmount quote = NaN
  \/ (exists a b, Quote.outAmount quote = Fin a /\ Quote.inAmount quote = Fin b
                  /\ a == 0 /\ b == 0) ->
  quotedPrice quote = NaN
  /\ slippageOf order quote = NaN
  /\ checkSlippage order quote = Check.mk true None.
Proof.
  intro H.
  assert (Hq : quotedPrice quote = NaN).
  { unfold quotedPrice.
    destruct H as [-> | [-> | (a & b & -> & -> & Ha & Hb)]].
    - reflexivity.
    - destruct (Quote.outAmount quote); reflexivity.
    - simpl. now rewrite (Qzerob_true b Hb), (Qzerob_true a Ha). }
  assert (Hs : slippageOf order quote = NaN)
    by (unfold slippageOf; rewrite Hq; reflexivity).
  split; [exact Hq|]. split; [exact Hs|].
  unfold checkSlippage, gtb. rewrite Hs.
  destruct (Order.slippageTolerance order); reflexivity.
Qed.

(** A quote of nothing for nothing, against a reference price of 100. *)
Lemma checkSlippage_accepts_unreadable_quote_witness :
  checkSlippage Demo.market100 (Demo.quote 0 0) = Check.mk true None.
Proof.
  destruct (checkSlippage_accepts_unreadable_quote
              Demo.market100 (Demo.quote 0 0)) as (_ & _ & H).
  - right. right. exists 0, 0. repeat split; reflexivity.
  - exact H.
Defined.

(** X21.  A quote with a zero input amount and a positive output amount
    has the price [Infinity]; for an order with a positive reference price
    and a finite tolerance, [checkSlippage] rejects it, and the reason it
    gives reads "Slippage Infinity% exceeds tolerance ...%". *)
Theorem checkSlippage_rejects_zero_input
    (order : Order.t) (quote : Quote.t) (P T a b : Q) :
  referencePrice order = Some (Fin P) -> 0 < P ->
  Order.slippageTolerance order = Fin T ->
  Quote.outAmount quote = Fin a -> 0 < a ->
  Quote.inAmount quote = Fin b -> b == 0 ->
  quotedPrice quote = PInf
  /\ slippageOf order quote = PInf
  /\ checkSlippage order quote
     = Check.mk false
         (Some ("Slippage Infinity% exceeds tolerance "
                  ++ toFixed2 (Fin (T * 100)) ++ "%")%string).
Proof.
  intros HP Hpos HT Ha Ha0 Hb Hb0.
  apply expectedPrice_reference in HP; [|exact Hpos].
  assert (Hq : quotedPrice quote = PInf).
  { unfold quotedPrice. rewrite Ha, Hb. simpl.
    rewrite (Qzerob_true b Hb0), Qzerob_false by lra.
    assert (E : Qltb a 0 = false) by (apply Qltb_false; lra).
    now rewrite E. }
  assert (Hs : slippageOf order quote = PInf).
  { unfold slippageOf. rewrite Hq, HP. simpl.
    assert (E : Qltb P 0 = false) by (apply Qltb_false; lra).
    now rewrite E. }
  split; [exact Hq|]. split; [exact Hs|].
  unfold checkSlippage, gtb, slippageReason. rewrite Hs, HT. simpl.
  assert (E : Qzerob 100 = false) by reflexivity.
  reflexivity.
Qed.

Lemma checkSlippage_rejects_zero_input_witness :
  checkSlippage Demo.market100 (Demo.quote 0 5)
  = Check.mk false
      (Some "Slippage Infinity% exceeds tolerance 1.00%"%string).
Proof.
  destruct (checkSlippage_rejects_zero_input
              Demo.market100 (Demo.quote 0 5) 100 (1 # 100) 5 0)
    as (_ & _ & H); try exact H; reflexivity.
Defined.

(** ** The cancel endpoint *)

(** The service's [cancelOrder] always returns a boolean. *)
Lemma cancelOrder_returns (env : Env) (orderId userId : string) (w : World) :
  exists cancelled, fst (cancelOrder env orderId userId w) = Ok cancelled.
Proof.
  run. destruct (poolRejects env (now w) _); run; eauto.
Qed.

(** X22.  The cancel endpoint answers 401 without touching the store when
    the request carries no user id, and otherwise 200 when the service's
    [cancelOrder] returned [true] and 404 when it returned [false]; it
    never answers 500.  So 200 means that a PENDING order of that user was
    cancelled, and a foreign order, a settled order, an unknown id and a
    store that rejected the statement all give the same 404. *)
Theorem cancel_endpoint_answers
    (env : Env) (userId : option string) (orderId : string) (w : World) :
  let answer := TradingController.cancelOrder env userId orderId w in
  (userId = None \/ userId = Some EmptyString ->
   answer = (Ok (TradingController.mkResponse 401
                   (TradingController.ErrorBody "Unauthorized")), w))
  /\ (forall user, userId = Some user -> user <> EmptyString ->
      snd answer = snd (cancelOrder env orderId user w)
      /\ (fst (cancelOrder env orderId user w) = Ok true ->
          fst answer
          = Ok (TradingController.mkResponse 200
                  (TradingController.SuccessBody "Order cancelled successfully"))
          /\ exists o, In o (orders w) /\ Order.id o = orderId
                       /\ Order.userId o = user /\ Order.status o = PENDING)
      /\ (fst (cancelOrder env orderId user w) = Ok false ->
          fst answer
          = Ok (TradingController.mkResponse 404
                  (TradingController.ErrorBody
                     "Order not found or cannot be cancelled")))
      /\ (forall e,
            poolRejects env (now w)
              (UpdateCancel CANCELLED orderId user PENDING) = Some e ->
            fst (cancelOrder env orderId user w) = Ok false))
  /\ (forall response, fst answer = Ok response ->
      TradingController.statusCode response <> 500%nat)
  /\ (forall e, fst answer <> Throw e).
Proof.
  cbv zeta.
  assert (Hauth : forall user, userId = Some user -> user <> EmptyString ->
            TradingController.cancelOrder env userId orderId w
            = (match fst (cancelOrder env orderId user w) with
               | Ok true =>
                   Ok (TradingController.mkResponse 200
                         (TradingController.SuccessBody
                            "Order cancelled successfully"))
               | _ =>
                   Ok (TradingController.mkResponse 404
                         (TradingController.ErrorBody
                            "Order not found or cannot be cancelled"))
               end,
               snd (cancelOrder env orderId user w))).
  { intros user -> Hne. unfold TradingController.cancelOrder.
    destruct user as [|c user]; [contradiction|].
    destruct (cancelOrder_returns env orderId (String c user) w) as [b Hb].
    unfold try_catch, bind, ret.
    destruct (cancelOrder env orderId (String c user) w) as [r w'].
    simpl in Hb. subst r. destruct b; reflexivity. }
  split; [|split; [|split]].
  - intros [-> | ->]; reflexivity.
  - intros user Hu Hne. rewrite (Hauth user Hu Hne).
    split; [reflexivity|]. split; [|split].
    + intro Htrue. rewrite Htrue. split; [reflexivity|].
      destruct (cancelOrder_true_run env orderId user w Htrue)
        as [_ [o [Hin Hc]]].
      exists o. split; [exact Hin|]. now apply cancellable_iff.
    + intro Hfalse. rewrite Hfalse. reflexivity.
    + intros e Hpool. run. rewrite Hpool. reflexivity.
  - intros response.
    destruct userId as [user|].
    + destruct user as [|c user].
      * simpl. intro H. inversion H. simpl. discriminate.
      * rewrite (Hauth (String c user) eq_refl) by discriminate.
        simpl. destruct (fst (cancelOrder env orderId (String c user) w))
          as [[|]|]; intro H; inversion H; simpl; discriminate.
    + simpl. intro H. inversion H. simpl. discriminate.
  - intros e.
    destruct userId as [user|].
    + destruct user as [|c user].
      * simpl. discriminate.
      * rewrite (Hauth (String c user) eq_refl) by discriminate.
        simpl. destruct (fst (cancelOrder env orderId (String c user) w))
          as [[|]|]; discriminate.
    + simpl. discriminate.
Qed.

(** Alice cancels her order; Bob gets 404 for it; nobody gets 401. *)
Lemma cancel_endpoint_answers_witness :
  let env := Demo.calm (Demo.quote 10 500) (Fin 45) in
  let w := Demo.world [Demo.sell50] in
  TradingController.statusCode_of
    (fst (TradingController.cancelOrder env (Some "alice"%string) "o1" w))
  = Some 200%nat
  /\ TradingController.statusCode_of
       (fst (TradingController.cancelOrder env (Some "bob"%string) "o1" w))
     = Some 404%nat
  /\ TradingController.cancelOrder env None "o1" w
     = (Ok (TradingController.mkResponse 401
              (TradingController.ErrorBody "Unauthorized")), w).
Proof.
  cbv zeta.
  pose (answers := fun user =>
          cancel_endpoint_answers (Demo.calm (Demo.quote 10 500) (Fin 45))
            user "o1"%string (Demo.world [Demo.sell50])).
  split; [|split].
  - destruct (answers (Some "alice"%string)) as (_ & H & _).
    destruct (H "alice"%string eq_refl) as (_ & Hok & _);
      [intro E; discriminate E|].
    destruct (Hok eq_refl) as [Hanswer _]. rewrite Hanswer. reflexivity.
  - destruct (answers (Some "bob"%string)) as (_ & H & _).
    destruct (H "bob"%string eq_refl) as (_ & _ & Hno & _);
      [intro E; discriminate E|].
    rewrite (Hno eq_refl). reflexivity.
  - destruct (answers None) as (H & _). apply H. left. reflexivity.
Defined.

(** *** Exceptions of the collaborators *)

(** X23.  An exception of a collaborator in steps 1 to 4 is caught and
    recorded: when the risk manager, the quote request or the swap request
    throws with message [e] and the store takes the write of the catch
    block, [executeMarketOrder] returns no trade, the order is FAILED with
    reason [e], no later collaborator is called, no trade is recorded and
    the portfolio is as before. *)
Theorem executeMarketOrder_records_exception
    (env : Env) (order : Order.t) (w : World) (e : string) :
  (validateOrder env (now w) order = Throw e ->
   poolRejects env (1 + now w) (verdict FAILED (Some e) order) = None ->
   executeMarketOrder env order w
   = (Ok None, afterException 1 order e (CValidateOrder order :: calls w) w))
  /\ (forall rc,
        validateOrder env (now w) order = Ok rc -> Check.isValid rc = true ->
        getQuote env (1 + now w) (Order.inputMint order) (Order.outputMint order)
          (Order.amount order) = Throw e ->
        poolRejects env (2 + now w) (verdict FAILED (Some e) order) = None ->
        executeMarketOrder env order w
        = (Ok None, afterException 2 order e (callsToQuote order w) w))
  /\ (forall rc quote,
        validateOrder env (now w) order = Ok rc -> Check.isValid rc = true ->
        getQuote env (1 + now w) (Order.inputMint order) (Order.outputMint order)
          (Order.amount order) = Ok (Some quote) ->
        Check.isValid (checkSlippage order quote) = true ->
        executeSwap env (2 + now w) quote (Order.userWallet order)
          (Order.slippageTolerance order) = Throw e ->
        poolRejects env (3 + now w) (verdict FAILED (Some e) order) = None ->
        executeMarketOrder env order w
        = (Ok None, afterException 3 order e (callsToSwap order quote w) w)).
Proof.
  unfold afterException, callsToSwap, callsToQuote, verdict.
  cbn [Nat.add]. split; [|split].
  - intros Hrisk Hpool. run. rewrite Hrisk. run. rewrite Hpool. reflexivity.
  - intros rc Hrisk Hvalid Hquote Hpool.
    run. rewrite Hrisk, Hvalid. run. rewrite Hquote. run.
    rewrite Hpool. reflexivity.
  - intros rc quote Hrisk Hvalid Hquote Hslip Hswap Hpool.
    run. rewrite Hrisk, Hvalid. run. rewrite Hquote, Hslip. run.
    rewrite Hswap. run. rewrite Hpool. reflexivity.
Qed.

(** The price source of the venue times out on the quote request. *)
Lemma executeMarketOrder_records_exception_witness :
  let env :=
    mkEnv (validateOrder (Demo.calm (Demo.quote 10 1000) (Fin 100)))
          (fun _ _ _ _ => Throw "quote timeout"%string)
          (executeSwap (Demo.calm (Demo.quote 10 1000) (Fin 100)))
          (getTokenPrice (Demo.calm (Demo.quote 10 1000) (Fin 100)))
          (updatePortfolioAfterTrade (Demo.calm (Demo.quote 10 1000) (Fin 100)))
          (poolRejects (Demo.calm (Demo.quote 10 1000) (Fin 100)))
          (generateTradeId (Demo.calm (Demo.quote 10 1000) (Fin 100))) in
  let w := Demo.world [Demo.market100] in
  executeMarketOrder env Demo.market100 w
  = (Ok None,
     afterException 2 Demo.market100 "quote timeout"
       (callsToQuote Demo.market100 w) w).
Proof.
  cbv zeta.
  match goal with
  | |- executeMarketOrder ?env ?o ?w = _ =>
      destruct (executeMarketOrder_records_exception env o w
                  "quote timeout"%string) as (_ & Hquote & _);
      exact (Hquote (Check.mk true None) eq_refl eq_refl eq_refl eq_refl)
  end.
Defined.

(** X24.  A settled swap can go unrecorded: when the venue reports a
    successful swap and the store rejects the insert of the trade with
    message [e], the catch block marks the order FAILED with reason [e]
    (the store taking that write) and [executeMarketOrder] returns no
    trade; the trades table and the portfolio are as before, although the
    swap was submitted. *)
Theorem executeMarketOrder_insert_rejected
    (env : Env) (order : Order.t) (quote : Quote.t) (swapResult : SwapResult.t)
    (w : World) (rc : Check.t) (e : string) :
  validateOrder env (now w) order = Ok rc -> Check.isValid rc = true ->
  getQuote env (1 + now w) (Order.inputMint order) (Order.outputMint order)
    (Order.amount order) = Ok (Some quote) ->
  Check.isValid (checkSlippage order quote) = true ->
  executeSwap env (2 + now w) quote (Order.userWallet order)
    (Order.slippageTolerance order) = Ok swapResult ->
  SwapResult.success swapResult = true ->
  poolRejects env (3 + now w)
    (InsertTrade (tradeAt env order swapResult quote (3 + now w))) = Some e ->
  poolRejects env (4 + now w) (verdict FAILED (Some e) order) = None ->
  executeMarketOrder env order w
  = (Ok None,
     afterException 4 order e
       (CQuery (InsertTrade (tradeAt env order swapResult quote (3 + now w)))
          :: callsToSwap order quote w) w)
  /\ In (CExecuteSwap quote (Order.userWallet order) (Order.slippageTolerance order))
        (calls (snd (executeMarketOrder env order w)))
  /\ trades (snd (executeMarketOrder env order w)) = trades w
  /\ portfolio (snd (executeMarketOrder env order w)) = portfolio w.
Proof.
  intros Hrisk Hvalid Hquote Hslip Hswap Hok Hinsert Hpool.
  assert (Hrun : executeMarketOrder env order w
                 = (Ok None,
                    afterException 4 order e
                      (CQuery (InsertTrade
                                 (tradeAt env order swapResult quote (3 + now w)))
                         :: callsToSwap order quote w) w)).
  { unfold afterException, callsToSwap, callsToQuote, verdict, tradeAt in *.
    cbn [Nat.add] in *.
    run. rewrite Hrisk, Hvalid. run. rewrite Hquote, Hslip. run.
    rewrite Hswap, Hok. run. rewrite Hinsert. run. rewrite Hpool.
    reflexivity. }
  rewrite Hrun. split; [reflexivity|]. split; [|split; reflexivity].
  simpl. tauto.
Qed.

(** The store rejects the insert of the trade (time 3) and nothing else. *)
Lemma executeMarketOrder_insert_rejected_witness :
  let env :=
    mkEnv (validateOrder (Demo.calm (Demo.quote 10 1000) (Fin 100)))
          (getQuote (Demo.calm (Demo.quote 10 1000) (Fin 100)))
          (executeSwap (Demo.calm (Demo.quote 10 1000) (Fin 100)))
          (getTokenPrice (Demo.calm (Demo.quote 10 1000) (Fin 100)))
          (updatePortfolioAfterTrade (Demo.calm (Demo.quote 10 1000) (Fin 100)))
          (fun t _ => if Nat.eqb t 3 then Some "disk full"%string else None)
          (generateTradeId (Demo.calm (Demo.quote 10 1000) (Fin 100))) in
  let w := Demo.world [Demo.market100] in
  fst (executeMarketOrder env Demo.market100 w) = Ok None
  /\ Demo.verdicts (snd (executeMarketOrder env Demo.market100 w))
     = [("o2"%string, FAILED, Some "disk full"%string)]
  /\ trades (snd (executeMarketOrder env Demo.market100 w)) = []
  /\ In (CExecuteSwap (Demo.quote 10 1000) "wallet-of-alice"%string (Fin (1 # 100)))
        (calls (snd (executeMarketOrder env Demo.market100 w))).
Proof.
  cbv zeta.
  match goal with
  | |- fst (executeMarketOrder ?env ?o ?w) = _ /\ _ =>
      destruct (executeMarketOrder_insert_rejected env o (Demo.quote 10 1000)
                  Demo.swapped w (Check.mk true None) "disk full"%string
                  eq_refl eq_refl eq_refl eq_refl eq_refl eq_refl eq_refl eq_refl)
        as (Hrun & Hswap & Htrades & _)
  end.
  split; [rewrite Hrun; reflexivity|].
  split; [rewrite Hrun; reflexivity|].
  split; [exact Htrades | exact Hswap].
Defined.

(** ** The loop over a queue without take-profit orders *)

(** X25.  Limit, stop-loss, market and trailing-stop orders cannot end the
    loop of [processPendingOrders]: over a queue without take-profit
    order the loop never throws, and the loop over a queue followed by
    more orders is the loop over the queue and then the loop over the
    rest, so every order behind such a queue is evaluated, whatever
    happened to the orders before it. *)
Theorem forEachOrder_isolates_failures (env : Env)
    (queue rest : list Order.t) (w : World) :
  Forall (fun o => Order.type o <> TAKE_PROFIT) queue ->
  fst (forEachOrder env queue w) = Ok tt
  /\ forEachOrder env (queue ++ rest) w
     = forEachOrder env rest (snd (forEachOrder env queue w)).
Proof.
  intro Hqueue. revert w.
  induction Hqueue as [|o queue Ho _ IH]; intro w.
  - split; reflexivity.
  - pose proof (dispatch_isolated env o w Ho) as Hd.
    cbn [app forEachOrder]. unfold bind.
    destruct (dispatch env o w) as [[[] | e] w1]; simpl in Hd;
      [|discriminate Hd].
    apply IH.
Qed.

(** A stop-loss order whose price request times out, followed by the
    limit order o1. *)
Lemma forEachOrder_isolates_failures_witness :
  let env := Demo.priceDownAt 0 (Demo.quote 10 500) (Fin 51) in
  let w := Demo.world [Demo.stopLoss; Demo.sell50] in
  fst (forEachOrder env [Demo.stopLoss] w) = Ok tt
  /\ forEachOrder env ([Demo.stopLoss] ++ [Demo.sell50]) w
     = forEachOrder env [Demo.sell50] (snd (forEachOrder env [Demo.stopLoss] w)).
Proof.
  cbv zeta.
  apply (forEachOrder_isolates_failures
           (Demo.priceDownAt 0 (Demo.quote 10 500) (Fin 51))
           [Demo.stopLoss] [Demo.sell50]
           (Demo.world [Demo.stopLoss; Demo.sell50])).
  constructor; [intro H; discriminate H | constructor].
Defined.
